(** * Cross-chain bridge event listener: relay engine and state store

    A shallow embedding of [script.py] (classes [StateDB],
    [BridgeContractHandler] and [EventProcessor]) and the properties of its
    relay loop: scan window, decoding, ordered dispatch, halt on failure,
    nonce bookkeeping and state persistence.

    Python integers are unbounded and are modelled by [Z]; Python [str] by
    [string]; the state dictionary by a record with its two keys.  Code that
    reads or writes the outside world (the two chain connectors, the HTTP
    oracle, the state file) is written in a state-and-exception monad [M]
    over a [World]: a raised exception leaves the mutations made so far in
    place, as in Python.

    The repository's other file, [docstring_utils.py], is not a module
    the interpreter can load (a docstring closed too early leaves prose
    where statements are due) and takes no part in the program. *)

From Stdlib Require Import ZArith List String Ascii Bool Lia QArith DecimalString.
From Stdlib Require HexadecimalString HexadecimalN DecimalPos DecimalZ.
From Stdlib Require Import Sorting.Sorted Sorting.Permutation.
Import ListNotations.

Local Open Scope string_scope.
Local Open Scope list_scope.
Local Open Scope Z_scope.

(** ** Exceptions

    Only the classes the handlers of the script tell apart.  Every value of
    [exn] stands for a subclass of Python's [Exception], so an
    [except Exception] clause catches all of them. *)

Inductive exn : Type :=
| FileNotFoundError
| JSONDecodeError          (* json.JSONDecodeError, raised by json.load *)
| RequestException (what : string)
                           (* requests.exceptions.RequestException and its
                              subclasses: ConnectionError, HTTPError, Timeout,
                              requests' own JSONDecodeError *)
| KeyError (key : string)
| TypeError
| ValueError
| OtherException (what : string).

Definition is_RequestException (e : exn) : bool :=
  match e with RequestException _ => true | _ => false end.


Inductive result (A : Type) : Type :=
| Ok (a : A)
| Raise (e : exn).

Arguments Ok {A} a.
Arguments Raise {A} e.

(** ** Data *)

(** [DepositEvent = namedtuple('DepositEvent', [...])]. *)
Record DepositEvent : Type := mkDepositEvent {
  sender : string;
  recipient : string;
  amount : Z;
  destinationChainId : Z;
  nonce : Z;
  tx_hash : string;
  log_index : Z
}.

(** What [process_log] yields: the decoded arguments and the log's own
    transaction hash (already rendered by [.hex()]) and index. *)
Record EventData : Type := mkEventData {
  args_sender : string;
  args_recipient : string;
  args_amount : Z;
  args_destinationChainId : Z;
  args_nonce : Z;
  transactionHash_hex : string;
  logIndex : Z
}.

(** The dictionary [StateDB.state], with the two keys [_load] and [_save]
    agree on. *)
Record State : Type := mkState {
  last_processed_block : Z;
  completed_nonces : list Z
}.

(** [str(n)] for an integer. *)
Definition str_of_int (n : Z) : string := NilZero.string_of_int (Z.to_int n).

(** *** The text of the state file

    [json.dump(self.state, f, indent=4)] and [json.load(f)], for the
    dictionary of a state. *)

Infix "+++" := String.append (at level 60, right associativity).

Definition dquote_char : ascii := ascii_of_nat 34.
Definition newline_char : ascii := ascii_of_nat 10.

Definition quoted (s : string) : string :=
  String dquote_char (s +++ String dquote_char EmptyString).

Definition nl : string := String newline_char EmptyString.

(** The items of a list that is not empty, after the first one, up to the
    closing bracket; [k] is the text that follows. *)
Fixpoint dump_items (xs : list Z) (k : string) : string :=
  match xs with
  | [] => nl +++ "    ]" +++ k
  | x :: xs' => "," +++ nl +++ "        " +++ str_of_int x +++ dump_items xs' k
  end.

Definition dump_list (xs : list Z) (k : string) : string :=
  match xs with
  | [] => "[]" +++ k
  | x :: xs' => "[" +++ nl +++ "        " +++ str_of_int x +++ dump_items xs' k
  end.

(** The text [json.dump] writes with [indent=4]: one key per line, one
    list item per line, an empty list as [[]]. *)
Definition json_dump (s : State) : string :=
  "{" +++ nl +++ "    " +++ quoted "last_processed_block" +++ ": "
  +++ str_of_int (last_processed_block s) +++ "," +++ nl +++ "    "
  +++ quoted "completed_nonces" +++ ": "
  +++ dump_list (completed_nonces s) (nl +++ "}").


















(** The state file at [db_path]: absent; present with a text; or present
    but such that opening or reading it raises [e] (bytes that do not
    decode raise [UnicodeDecodeError], a directory at the path
    [IsADirectoryError], a file without read permission
    [PermissionError]).  Opening the file for writing and writing to it
    succeed. *)
Inductive file : Type :=
| FileMissing
| FileText (text : string)
| FileRaises (e : exn).

(** The file [_save] leaves for the dictionary [s]. *)
Definition FileJson (s : State) : file := FileText (json_dump s).

(** A transaction receipt: a dictionary that may lack its [status] key. *)
Record Receipt : Type := mkReceipt {
  status : option Z;
  blockNumber : Z;
  transactionHash : string
}.

(** JSON values, as [response.json()] returns them. *)
#[local] Unset Elimination Schemes.
Inductive json : Type :=
| JNull
| JBool (b : bool)
| JInt (z : Z)
| JFloat (q : Q)
| JStr (s : string)
| JList (l : list json)
| JDict (d : list (string * json)).
#[local] Set Elimination Schemes.

(** An HTTP response: status code and body ([None] when the body is not
    JSON). *)
Record Response : Type := mkResponse {
  status_code : Z;
  body : option json
}.

(** Effects on the outside world worth observing: each mint submission of
    the destination handler and each rewrite of the state file. *)
Inductive effect : Type :=
| EMint (event : DepositEvent)
| ESave (s : State).

(** ** The world and the monad *)

Section World.

Context {W : Type}.

(** [ext] is the state of the external collaborators (both chains and the
    oracle's server); [disk] the state file; [state] the dictionary held by
    the one [StateDB] object; [trace] the observed effects, latest last. *)
Record World : Type := mkWorld {
  ext : W;
  disk : file;
  state : State;
  trace : list effect
}.

Definition M (A : Type) : Type := World -> result A * World.

Definition ret {A} (a : A) : M A := fun w => (Ok a, w).

Definition raise {A} (e : exn) : M A := fun w => (Raise e, w).

Definition bind {A B} (m : M A) (k : A -> M B) : M B :=
  fun w =>
    match m w with
    | (Ok a, w') => k a w'
    | (Raise e, w') => (Raise e, w')
    end.

(** [try: body / except <catches> as e: handler e]. *)
Definition try_except {A} (body : M A) (catches : exn -> bool)
    (handler : exn -> M A) : M A :=
  fun w =>
    match body w with
    | (Ok a, w') => (Ok a, w')
    | (Raise e, w') => if catches e then handler e w' else (Raise e, w')
    end.

Definition lift_result {A} (r : result A) : M A := fun w => (r, w).

(** A call into an external collaborator: it sees and changes [ext] only. *)
Definition call_ext {A} (f : W -> result A * W) : M A :=
  fun w =>
    let '(r, x) := f (ext w) in
    (r, mkWorld x (disk w) (state w) (trace w)).

Definition get_state : M State := fun w => (Ok (state w), w).

Definition put_state (s : State) : M unit :=
  fun w => (Ok tt, mkWorld (ext w) (disk w) s (trace w)).

(** [open(self.db_path, 'w')] and [json.dump]: the file then holds the
    text of [s].  Opening the file for writing and writing to it are
    taken to succeed, and the integers of [s] to be within the digit
    limit of [json.dump]. *)
Definition write_file (s : State) : M unit :=
  fun w => (Ok tt, mkWorld (ext w) (FileJson s) (state w) (trace w ++ [ESave s])).

Definition emit (e : effect) : M unit :=
  fun w => (Ok tt, mkWorld (ext w) (disk w) (state w) (trace w ++ [e])).

End World.

Arguments World W : clear implicits.
Arguments M W A : clear implicits.

Notation "x <- m ;; k" := (bind m (fun x => k))
  (at level 61, m at next level, right associativity).
Notation "m ;;; k" := (bind m (fun _ => k))
  (at level 61, right associativity).

(** ** Python built-ins used by the script *)

(** Comparison of the tuples [(nonce, log_index)]: lexicographic. *)
Definition tuple_leb (a b : Z * Z) : bool :=
  (fst a <? fst b) || ((fst a =? fst b) && (snd a <=? snd b)).

Definition tuple_lt (a b : Z * Z) : Prop :=
  fst a < fst b \/ (fst a = fst b /\ snd a < snd b).

(** [sorted(l, key=key)] and [l.sort()]: a stable sort.  An element goes in
    front of the first one whose key is not smaller, so elements with equal
    keys keep their order of arrival. *)
Fixpoint insert_by {A K} (leb : K -> K -> bool) (key : A -> K) (x : A)
    (l : list A) : list A :=
  match l with
  | [] => [x]
  | y :: l' => if leb (key x) (key y) then x :: l else y :: insert_by leb key x l'
  end.

Definition sorted_by {A K} (leb : K -> K -> bool) (key : A -> K)
    (l : list A) : list A :=
  fold_right (insert_by leb key) [] l.

Definition list_sort (l : list Z) : list Z := sorted_by Z.leb (fun z => z) l.

(** [x in l] for a list of integers. *)
Definition py_in (x : Z) (l : list Z) : bool := existsb (Z.eqb x) l.

(** [d[key]] on a JSON value: only a dictionary can be indexed by a string. *)
Fixpoint dict_get (key : string) (d : list (string * json)) : option json :=
  match d with
  | [] => None
  | (k, v) :: d' => if String.eqb k key then Some v else dict_get key d'
  end.

Definition py_getitem (v : json) (key : string) : result json :=
  match v with
  | JDict d =>
      match dict_get key d with
      | Some x => Ok x
      | None => Raise (KeyError key)
      end
  | _ => Raise TypeError
  end.

(** ** The chain connector

    [BridgeContractHandler] and [EventProcessor] use their connector through
    four methods only ([MockBlockchainConnector] is one implementation); each
    may raise.  [RawLog] is the type of a log entry ([LogReceipt]). *)

Record Connector (W RawLog : Type) : Type := mkConnector {
  chain_name : string;
  get_latest_block_number : W -> result Z * W;
  get_events : string -> Z -> Z -> W -> result (list RawLog) * W;
  send_raw_transaction : string -> W -> result string * W;
  get_transaction_receipt : string -> W -> result (option Receipt) * W
}.

Arguments chain_name {W RawLog} c.
Arguments get_latest_block_number {W RawLog} c.
Arguments get_events {W RawLog} c.
Arguments send_raw_transaction {W RawLog} c.
Arguments get_transaction_receipt {W RawLog} c.

(** [BridgeContractHandler]: its connector, its address and the decoder of
    its web3 contract object
    ([self.contract.events.DepositInitiated().process_log]). *)
Record BridgeContractHandler (W RawLog : Type) : Type := mkHandler {
  connector : Connector W RawLog;
  address : string;
  process_log : RawLog -> result EventData
}.

Arguments connector {W RawLog} b.
Arguments address {W RawLog} b.
Arguments process_log {W RawLog} b.

(** [EventProcessor]; its [state_db] is the [state] and [disk] of the
    world. *)
Record EventProcessor (W RawLog : Type) : Type := mkEventProcessor {
  source_handler : BridgeContractHandler W RawLog;
  dest_handler : BridgeContractHandler W RawLog;
  target_chain_id : Z;
  poll_interval_seconds : Z;
  block_scan_range : Z
}.

Arguments source_handler {W RawLog} e.
Arguments dest_handler {W RawLog} e.
Arguments target_chain_id {W RawLog} e.
Arguments poll_interval_seconds {W RawLog} e.
Arguments block_scan_range {W RawLog} e.

(** [EventProcessor.__init__]. *)
Definition EventProcessor_init {W RawLog}
    (source_handler dest_handler : BridgeContractHandler W RawLog)
    (target_chain_id : Z) : EventProcessor W RawLog :=
  mkEventProcessor W RawLog source_handler dest_handler target_chain_id 10 100.

Definition oracle_url : string :=
  "https://api.etherscan.io/api?module=gastracker&action=gasoracle&apikey=YourApiKeyToken".

Section Relay.

Context {W RawLog : Type}.

(** [requests.get] against the world, and [float] on a string. *)
Variable requests_get : string -> W -> result Response * W.
Variable float_of_str : string -> option Q.

(** *** StateDB *)





Definition _save : M W unit :=
  s <- get_state ;;
  write_file s.

Definition get_last_processed_block : M W Z :=
  s <- get_state ;;
  ret (last_processed_block s).

Definition set_last_processed_block (block_number : Z) : M W unit :=
  s <- get_state ;;
  put_state (mkState block_number (completed_nonces s)) ;;;
  _save.

Definition is_nonce_processed (nonce : Z) : M W bool :=
  s <- get_state ;;
  ret (py_in nonce (completed_nonces s)).

Definition mark_nonce_as_processed (nonce : Z) : M W unit :=
  processed <- is_nonce_processed nonce ;;
  if negb processed then
    s <- get_state ;;
    put_state (mkState (last_processed_block s) (completed_nonces s ++ [nonce])) ;;;
    s <- get_state ;;
    put_state (mkState (last_processed_block s) (list_sort (completed_nonces s))) ;;;
    _save
  else ret tt.

(** *** BridgeContractHandler *)

Definition DepositEvent_of (event_data : EventData) : DepositEvent :=
  mkDepositEvent (args_sender event_data) (args_recipient event_data)
    (args_amount event_data) (args_destinationChainId event_data)
    (args_nonce event_data) (transactionHash_hex event_data)
    (logIndex event_data).

(** The [for log in raw_logs] loop of [get_deposit_events]. *)
Fixpoint decode_loop (h : BridgeContractHandler W RawLog)
    (raw_logs : list RawLog) (decoded_events : list DepositEvent)
    : M W (list DepositEvent) :=
  match raw_logs with
  | [] => ret decoded_events
  | log :: rest =>
      event_data <- lift_result (process_log h log) ;;
      decode_loop h rest (decoded_events ++ [DepositEvent_of event_data])
  end.

Definition get_deposit_events (h : BridgeContractHandler W RawLog)
    (from_block to_block : Z) : M W (list DepositEvent) :=
  try_except
    (raw_logs <- call_ext (get_events (connector h) (address h) from_block to_block) ;;
     decode_loop h raw_logs [])
    (fun _ => true)
    (fun _ => ret []).

Definition execute_mint (h : BridgeContractHandler W RawLog)
    (event : DepositEvent) : M W (option string) :=
  emit (EMint event) ;;;
  let mock_raw_tx := String.append "signed_mint_tx_for_nonce_" (str_of_int (nonce event)) in
  try_except
    (tx_hash <- call_ext (send_raw_transaction (connector h) mock_raw_tx) ;;
     ret (Some tx_hash))
    (fun _ => true)
    (fun _ => ret None).

(** *** EventProcessor *)

Definition raise_for_status (response : Response) : M W unit :=
  if (400 <=? status_code response) && (status_code response <? 600)
  then raise (RequestException "HTTPError")
  else ret tt.

Definition response_json (response : Response) : M W json :=
  match body response with
  | Some j => ret j
  | None => raise (RequestException "JSONDecodeError")
  end.

(** [float(n)] for an integer: the nearest float, ties to the even one of
    the two, and [OverflowError] when that is beyond the largest float. *)
Definition float_of_int (z : Z) : result Q :=
  let a := Z.abs z in
  if a <? 2 ^ 53 then Ok (inject_Z z)
  else
    let k := Z.log2 a - 52 in
    let q := a / 2 ^ k in
    let r := a mod 2 ^ k in
    let half := 2 ^ (k - 1) in
    let q' := if (half <? r) || ((r =? half) && Z.odd q) then q + 1 else q in
    let m := q' * 2 ^ k in
    if 2 ^ 1024 <=? m then Raise (OtherException "OverflowError")
    else Ok (inject_Z (Z.sgn z * m)).

Definition py_float (v : json) : result Q :=
  match v with
  | JStr s =>
      match float_of_str s with
      | Some q => Ok q
      | None => Raise ValueError
      end
  | JInt z => float_of_int z
  | JFloat q => Ok q
  | JBool b => Ok (if b then 1%Q else 0%Q)
  | JNull | JList _ | JDict _ => Raise TypeError
  end.

Definition default_gas_price : Q := 50%Q.

Definition _fetch_gas_price_from_oracle : M W Q :=
  try_except
    (response <- call_ext (requests_get oracle_url) ;;
     raise_for_status response ;;;
     gas_data <- response_json response ;;
     res <- lift_result (py_getitem gas_data "result") ;;
     price <- lift_result (py_getitem res "ProposeGasPrice") ;;
     propose_gas_price <- lift_result (py_float price) ;;
     ret propose_gas_price)
    is_RequestException
    (fun _ => ret default_gas_price).

(** The [try] block of step 5, on a transaction hash. *)
Definition confirm_mint (self : EventProcessor W RawLog)
    (event : DepositEvent) (mint_tx_hash : string) : M W bool :=
  try_except
    (receipt <- call_ext (get_transaction_receipt (connector (dest_handler self)) mint_tx_hash) ;;
     match receipt with
     | None => ret false
     | Some r =>
         match status r with
         | None => raise (KeyError "status")
         | Some st =>
             if st =? 1 then
               mark_nonce_as_processed (nonce event) ;;;
               ret true
             else ret false
         end
     end)
    (fun _ => true)
    (fun _ => ret false).

Definition process_single_event (self : EventProcessor W RawLog)
    (event : DepositEvent) : M W bool :=
  if negb (destinationChainId event =? target_chain_id self) then ret true
  else
    processed <- is_nonce_processed (nonce event) ;;
    if processed then ret true
    else
      _fetch_gas_price_from_oracle ;;;
      mint_tx_hash <- execute_mint (dest_handler self) event ;;
      match mint_tx_hash with
      | None | Some EmptyString => ret false
      | Some h => confirm_mint self event h
      end.

Definition sort_key (e : DepositEvent) : Z * Z := (nonce e, log_index e).

(** The [for event in sorted(...)] loop of [run], with its [break]. *)
Fixpoint process_batch (self : EventProcessor W RawLog)
    (events : list DepositEvent) : M W unit :=
  match events with
  | [] => ret tt
  | event :: rest =>
      success <- process_single_event self event ;;
      if negb success then ret tt
      else process_batch self rest
  end.

(** [if events: for event in sorted(events, key=...): ...]. *)
Definition process_events (self : EventProcessor W RawLog)
    (events : list DepositEvent) : M W unit :=
  match events with
  | [] => ret tt
  | _ :: _ => process_batch self (sorted_by tuple_leb sort_key events)
  end.

(** The window of one iteration: [(from_block, to_block)]. *)
Definition scan_window (self : EventProcessor W RawLog)
    (last_processed_block latest_block : Z) : Z * Z :=
  let from_block := last_processed_block + 1 in
  let to_block := Z.min latest_block (from_block + block_scan_range self) in
  (from_block, to_block).

(** One turn of the [while True] loop of [run] (sleeping and logging leave
    no mark on the world). *)
Definition run_iteration (self : EventProcessor W RawLog) : M W unit :=
  try_except
    (last_processed_block <- get_last_processed_block ;;
     latest_block <- call_ext (get_latest_block_number (connector (source_handler self))) ;;
     let '(from_block, to_block) := scan_window self last_processed_block latest_block in
     if from_block >? latest_block then ret tt
     else
       events <- get_deposit_events (source_handler self) from_block to_block ;;
       process_events self events ;;;
       set_last_processed_block to_block)
    (fun _ => true)
    (fun _ => ret tt).

(** [n] turns of the loop. *)
Fixpoint run (self : EventProcessor W RawLog) (n : nat) : M W unit :=
  match n with
  | O => ret tt
  | S n' => run_iteration self ;;; run self n'
  end.

End Relay.

(** ** Vocabulary of the properties *)

(** The mint submissions of a trace, in order. *)
Fixpoint mints (t : list effect) : list DepositEvent :=
  match t with
  | [] => []
  | EMint e :: t' => e :: mints t'
  | ESave _ :: t' => mints t'
  end.

(** The file writes of a trace, in order. *)
Fixpoint saves (t : list effect) : list State :=
  match t with
  | [] => []
  | EMint _ :: t' => saves t'
  | ESave s :: t' => s :: saves t'
  end.

(** The world with another external state, and the computations that
    touch nothing else. *)
Definition with_ext {W} (x : W) (w : World W) : World W :=
  mkWorld x (disk w) (state w) (trace w).

Definition ext_only {W A} (m : M W A) : Prop :=
  forall w, exists r x, m w = (r, with_ext x w).

(** The world after [_save] of the state [s]. *)
Definition saved {W} (s : State) (w : World W) : World W :=
  mkWorld (ext w) (FileJson s) s (trace w ++ [ESave s]).

(** The state with one more completed nonce. *)
Definition with_nonce (n : Z) (s : State) : State :=
  mkState (last_processed_block s) (list_sort (completed_nonces s ++ [n])).

(** Order of two elements by their keys. *)
Definition le_by {A K} (leb : K -> K -> bool) (key : A -> K) (a b : A) : Prop :=
  leb (key a) (key b) = true.

Definition lt_by {A K} (lt : K -> K -> Prop) (key : A -> K) (a b : A) : Prop :=
  lt (key a) (key b).

(** [l1] is [l2] with some elements left out. *)
Inductive subseq {A : Type} : list A -> list A -> Prop :=
| subseq_nil : subseq [] []
| subseq_skip (x : A) (l1 l2 : list A) : subseq l1 l2 -> subseq l1 (x :: l2)
| subseq_keep (x : A) (l1 l2 : list A) : subseq l1 l2 -> subseq (x :: l1) (x :: l2).

(** Strictly ascending [(nonce, log_index)]. *)
Definition key_lt (a b : DepositEvent) : Prop :=
  tuple_lt (sort_key a) (sort_key b).

(** Number of blocks of the window [(from_block, to_block)], both ends
    included. *)
Definition window_size (win : Z * Z) : Z := snd win - fst win + 1.

(** The window as the specification writes it:
    [toBlock = min(latest, fromBlock + maxRangeSize - 1)]. *)
Definition spec_scan_window (max_range_size last_processed_block latest_block : Z)
    : Z * Z :=
  let from_block := last_processed_block + 1 in
  (from_block, Z.min latest_block (from_block + max_range_size - 1)).

(** Decoding that drops the failing logs one by one, as the specification
    of the decoder describes it. *)
Definition decode_dropping_failures {W RawLog}
    (h : BridgeContractHandler W RawLog) (raw_logs : list RawLog)
    : list DepositEvent :=
  flat_map
    (fun log =>
       match process_log h log with
       | Ok event_data => [DepositEvent_of event_data]
       | Raise _ => []
       end)
    raw_logs.

Definition decodes {W RawLog} (h : BridgeContractHandler W RawLog)
    (log : RawLog) : bool :=
  match process_log h log with Ok _ => true | Raise _ => false end.

(** "Only the failing log is dropped": whatever batch the connector hands
    over, the handler returns the records of all logs that decode. *)
Definition drops_only_failing_logs {W RawLog}
    (h : BridgeContractHandler W RawLog) (from_block to_block : Z)
    (w : World W) : Prop :=
  forall raw_logs x,
    get_events (connector h) (address h) from_block to_block (ext w) = (Ok raw_logs, x) ->
    fst (get_deposit_events h from_block to_block w)
    = Ok (decode_dropping_failures h raw_logs).

(** The destination mint of [event] is confirmed, seen from the external
    state [x]: the submission returns a non-empty handle and the receipt
    fetched for it has status 1. *)
Definition mint_confirmed {W RawLog} (self : EventProcessor W RawLog)
    (event : DepositEvent) (x : W) : bool :=
  let c := connector (dest_handler self) in
  match send_raw_transaction c
          (String.append "signed_mint_tx_for_nonce_" (str_of_int (nonce event))) x with
  | (Ok EmptyString, _) => false
  | (Ok h, x') =>
      match get_transaction_receipt c h x' with
      | (Ok (Some r), _) =>
          match status r with
          | Some st => st =? 1
          | None => false
          end
      | _ => false
      end
  | (Raise _, _) => false
  end.








(** Operations of the state store, for sequences of calls. *)
Inductive store_op : Type :=
| OpSetBlock (block_number : Z)
| OpMark (nonce : Z).

Definition run_op {W} (o : store_op) : M W unit :=
  match o with
  | OpSetBlock n => set_last_processed_block n
  | OpMark n => mark_nonce_as_processed n
  end.

Fixpoint run_ops {W} (ops : list store_op) : M W unit :=
  match ops with
  | [] => ret tt
  | o :: ops' => run_op o ;;; run_ops ops'
  end.


(** ** Test doubles

    A connector with canned answers over a world without state, and three
    oracle servers.  A raw log is identified with the outcome of decoding
    it. *)

Definition stub_connector {RawLog} (name : string) (latest : Z)
    (logs : list RawLog) (send : string -> result string)
    (receipt : string -> result (option Receipt)) : Connector unit RawLog :=
  mkConnector unit RawLog name
    (fun x => (Ok latest, x))
    (fun _ from_block to_block x =>
       (Ok (if from_block >? to_block then [] else logs), x))
    (fun raw_tx x => (send raw_tx, x))
    (fun h x => (receipt h, x)).

Definition stub_handler (name : string) (latest : Z)
    (logs : list (result EventData)) (send : string -> result string)
    (receipt : string -> result (option Receipt))
    : BridgeContractHandler unit (result EventData) :=
  mkHandler unit (result EventData)
    (stub_connector name latest logs send receipt) "0x5FbDB2315678afecb367f032d93F642f64180aa3"
    (fun log => log).

Definition deposit (n idx : Z) : EventData :=
  mkEventData "0xbb" "0xcc" 1000000000000000000 97 n "0xfeed" idx.

Definition send_ok (raw_tx : string) : result string :=
  Ok (String.append "0x" raw_tx).

(** Submission fails for the mint of nonce 3 only. *)
Definition send_failing_on_3 (raw_tx : string) : result string :=
  if String.eqb raw_tx "signed_mint_tx_for_nonce_3"
  then Raise (OtherException "ConnectionError")
  else send_ok raw_tx.

Definition receipt_ok (h : string) : result (option Receipt) :=
  Ok (Some (mkReceipt (Some 1) 7 h)).

Definition oracle_down (url : string) (x : unit) : result Response * unit :=
  (Raise (RequestException "ConnectionError"), x).

Definition oracle_up (url : string) (x : unit) : result Response * unit :=
  (Ok (mkResponse 200
         (Some (JDict [("status", JStr "1"); ("message", JStr "OK");
                       ("result", JDict [("SafeGasPrice", JStr "28");
                                         ("ProposeGasPrice", JStr "30")])]))), x).

(** The server's answer to a request it rejects: HTTP 200 and a body whose
    ["result"] is a message. *)
Definition oracle_rejecting (url : string) (x : unit) : result Response * unit :=
  (Ok (mkResponse 200
         (Some (JDict [("status", JStr "0"); ("message", JStr "NOTOK");
                       ("result", JStr "Invalid API Key")]))), x).

Definition float_of_digits (s : string) : option Q :=
  match NilZero.int_of_string s with
  | Some i => Some (inject_Z (Z.of_int i))
  | None => None
  end.

(** Four deposits with nonces 1 to 4, arriving out of order, and the
    deposits of the scenario of the specification: nonces 7, 5, 5, 9 at log
    indices 0, 0, 1, 0. *)
Definition four_deposits : list (result EventData) :=
  [Ok (deposit 2 0); Ok (deposit 1 0); Ok (deposit 4 0); Ok (deposit 3 0)].

Definition scenario_deposits : list DepositEvent :=
  map DepositEvent_of [deposit 7 0; deposit 5 0; deposit 5 1; deposit 9 0].

(** A relay for chain 97 over a source chain at height [latest] whose
    windows hold [logs]. *)
Definition relay (latest : Z) (logs : list (result EventData))
    (send : string -> result string)
    (receipt : string -> result (option Receipt))
    : EventProcessor unit (result EventData) :=
  EventProcessor_init
    (stub_handler "SourceChain" latest logs send_ok receipt_ok)
    (stub_handler "DestinationChain" 9 [] send receipt)
    97.

(** A batch of three logs whose second entry does not decode. *)
Definition batch_with_bad_log : list (result EventData) :=
  [Ok (deposit 1 0); Raise ValueError; Ok (deposit 2 0)].

Definition world_at (block : Z) (nonces : list Z) : World unit :=
  mkWorld tt (FileJson (mkState block nonces)) (mkState block nonces) [].

(** ** MockBlockchainConnector

    The connector the script runs with.  Its two instances (source and
    destination chain) each hold a [current_block]; the draws of [uuid4]
    are numbered in the order they are made, [uuid4_hex k] being the
    rendering [uuid4().hex] of draw [k]; [Web3.to_checksum_address] may
    reject an address. *)

(** A log entry as the mock builds it (the dictionary [mock_event]). *)
Record LogReceipt : Type := mkLogReceipt {
  log_address : string;
  log_topics : list string;
  log_data : string;
  log_blockNumber : Z;
  log_transactionHash : string;
  log_transactionIndex : Z;
  log_blockHash : string;
  log_logIndex : Z;
  log_removed : bool
}.

Inductive mock_id : Type := source_connector | dest_connector.

Record MockWorld : Type := mkMockWorld {
  source_current_block : Z;
  dest_current_block : Z;
  uuids_drawn : nat
}.

(** [c * k] for a one-character string [c]. *)
Fixpoint str_repeat (c : ascii) (k : nat) : string :=
  match k with
  | O => EmptyString
  | S k' => String c (str_repeat c k')
  end.

(** Hexadecimal digits of a natural number, lower case, and back. *)
Definition hex_of_N (n : N) : string :=
  HexadecimalString.NilZero.string_of_uint (N.to_hex_uint n).

Definition N_of_hex (s : string) : option N :=
  option_map N.of_hex_uint (HexadecimalString.NilZero.uint_of_string s).

(** [f'{n:064x}']: sign first, then zeros up to a width of 64. *)
Definition zero_pad (width : nat) (s : string) : string :=
  String.append (str_repeat "0" (width - String.length s)) s.

Definition format_064x (n : Z) : string :=
  if n <? 0 then String "-" (zero_pad 63 (hex_of_N (Z.to_N (- n))))
  else zero_pad 64 (hex_of_N (Z.to_N n)).

Module MockBlockchainConnector.

Section Mock.

Variable uuid4_hex : nat -> string.
Variable to_checksum_address : string -> result string.

Definition current_block (c : mock_id) (x : MockWorld) : Z :=
  match c with
  | source_connector => source_current_block x
  | dest_connector => dest_current_block x
  end.

Definition set_current_block (c : mock_id) (b : Z) (x : MockWorld) : MockWorld :=
  match c with
  | source_connector => mkMockWorld b (dest_current_block x) (uuids_drawn x)
  | dest_connector => mkMockWorld (source_current_block x) b (uuids_drawn x)
  end.

(** [uuid4().hex]. *)
Definition uuid4 (x : MockWorld) : string * MockWorld :=
  (uuid4_hex (uuids_drawn x),
   mkMockWorld (source_current_block x) (dest_current_block x) (S (uuids_drawn x))).

Definition get_latest_block_number (c : mock_id) (x : MockWorld)
    : result Z * MockWorld :=
  let x' := set_current_block c (current_block c x + 1) x in
  (Ok (current_block c x'), x').

Definition get_events (c : mock_id) (contract_address : string)
    (from_block to_block : Z) (x : MockWorld)
    : result (list LogReceipt) * MockWorld :=
  if from_block >? to_block then (Ok [], x)
  else if current_block c x mod 5 =? 0 then
    match to_checksum_address contract_address with
    | Raise e => (Raise e, x)
    | Ok checksummed =>
        let data :=
          String.append "0x"
            (String.append (format_064x 1000000000000000000)
               (String.append (format_064x 97)
                  (format_064x (current_block c x)))) in
        let '(tx, x1) := uuid4 x in
        let '(bh, x2) := uuid4 x1 in
        (Ok [mkLogReceipt checksummed
               [String.append "0x" (str_repeat "a" 64);
                String.append "0x" (str_repeat "b" 64);
                String.append "0x" (str_repeat "c" 64)]
               data (current_block c x) (String.append "0x" tx) 0
               (String.append "0x" bh) 0 false],
         x2)
    end
  else (Ok [], x).

Definition send_raw_transaction (c : mock_id) (raw_tx : string)
    (x : MockWorld) : result string * MockWorld :=
  let '(h, x1) := uuid4 x in
  (Ok (String.append "0x" h), x1).

Definition get_transaction_receipt (c : mock_id) (tx_hash : string)
    (x : MockWorld) : result (option Receipt) * MockWorld :=
  match get_latest_block_number c x with
  | (Ok b, x') => (Ok (Some (mkReceipt (Some 1) (b + 1) tx_hash)), x')
  | (Raise e, x') => (Raise e, x')
  end.

(** The mock as a connector. *)
Definition as_connector (c : mock_id) (name : string)
    : Connector MockWorld LogReceipt :=
  mkConnector MockWorld LogReceipt name
    (get_latest_block_number c) (get_events c)
    (send_raw_transaction c) (get_transaction_receipt c).

End Mock.

End MockBlockchainConnector.

(** A uuid source for examples: draw [k] renders as the decimal digits of
    [k]. *)
Definition counting_uuid (k : nat) : string := str_of_int (Z.of_nat k).

(** The script's own wiring ([__main__]): two mock connectors, target
    chain 97; the decoder of the web3 contract object is left open. *)
Definition mock_relay (process_log : LogReceipt -> result EventData)
    : EventProcessor MockWorld LogReceipt :=
  EventProcessor_init
    (mkHandler MockWorld LogReceipt
       (MockBlockchainConnector.as_connector counting_uuid (fun a => Ok a)
          source_connector "SourceChain")
       "0x5FbDB2315678afecb367f032d93F642f64180aa3" process_log)
    (mkHandler MockWorld LogReceipt
       (MockBlockchainConnector.as_connector counting_uuid (fun a => Ok a)
          dest_connector "DestinationChain")
       "0xe7f1725E7734CE288F8367e1Bb143E90bb3F0512" process_log)
    97.

(** An oracle server that answers with a price, over any world. *)
Definition oracle_answering {W} (url : string) (x : W) : result Response * W :=
  (Ok (mkResponse 200
         (Some (JDict [("status", JStr "1");
                       ("result", JDict [("ProposeGasPrice", JStr "30")])]))), x).

(** ** Vocabulary of the engine's invariants *)

(** A record the engine may dispatch in the world [w]: it is for the
    target chain and its nonce is not completed. *)
Definition fresh_for {W RawLog} (self : EventProcessor W RawLog)
    (w : World W) (m : DepositEvent) : Prop :=
  destinationChainId m = target_chain_id self
  /\ py_in (nonce m) (completed_nonces (state w)) = false.

(** The nonces completed in [w] are still completed in [w']. *)
Definition nonces_kept {W} (w w' : World W) : Prop :=
  forall n, In n (completed_nonces (state w)) ->
            In n (completed_nonces (state w')).

(** * Properties *)

(** ** Sorting *)

Section Sorting.

Context {A K : Type}.
Variable leb : K -> K -> bool.
Variable key : A -> K.
Variable lt : K -> K -> Prop.

Hypothesis leb_total : forall a b, leb a b = false -> leb b a = true.
Hypothesis leb_trans : forall a b c, leb a b = true -> leb b c = true -> leb a c = true.
Hypothesis leb_lt : forall a b, leb a b = true -> a <> b -> lt a b.
Hypothesis lt_asym : forall a b, lt a b -> lt b a -> False.

Local Abbreviation le_key := (le_by leb key).
Local Abbreviation lt_key := (lt_by lt key).

Lemma insert_by_perm (x : A) (l : list A) :
  Permutation (insert_by leb key x l) (x :: l).
Proof.
  induction l as [|y l IH]; simpl.
  - apply Permutation_refl.
  - destruct (leb (key x) (key y)).
    + apply Permutation_refl.
    + eapply perm_trans; [apply perm_skip, IH | apply perm_swap].
Qed.

Lemma sorted_by_perm (l : list A) : Permutation (sorted_by leb key l) l.
Proof.
  induction l as [|x l IH]; simpl.
  - constructor.
  - eapply perm_trans; [apply insert_by_perm | apply perm_skip, IH].
Qed.

Lemma insert_by_sorted (x : A) (l : list A) :
  StronglySorted le_key l -> StronglySorted le_key (insert_by leb key x l).
Proof.
  induction 1 as [|y l Hs IH Hy]; simpl.
  - repeat constructor.
  - destruct (leb (key x) (key y)) eqn:E.
    + constructor; [constructor; assumption|].
      constructor; [exact E|].
      eapply Forall_impl; [|exact Hy].
      intros z Hz. unfold le_by in *. eapply leb_trans; eassumption.
    + constructor; [exact IH|].
      eapply Permutation_Forall; [apply Permutation_sym, insert_by_perm|].
      constructor; [apply leb_total, E | exact Hy].
Qed.

Lemma sorted_by_sorted (l : list A) : StronglySorted le_key (sorted_by leb key l).
Proof.
  induction l as [|x l IH]; simpl.
  - constructor.
  - apply insert_by_sorted, IH.
Qed.

Lemma sorted_distinct_strict (l : list A) :
  StronglySorted le_key l -> NoDup (map key l) -> StronglySorted lt_key l.
Proof.
  induction 1 as [|x l Hs IH Hx]; intros Hnd; simpl in *.
  - constructor.
  - inversion Hnd as [|k ks Hnotin Hnd']; subst.
    constructor; [apply IH, Hnd'|].
    rewrite Forall_forall in *. intros y Hy.
    apply leb_lt; [apply Hx, Hy|].
    intros Heq. apply Hnotin. rewrite Heq. apply in_map, Hy.
Qed.

Lemma strict_sorted_unique (l1 : list A) :
  forall l2, StronglySorted lt_key l1 -> StronglySorted lt_key l2 ->
             Permutation l1 l2 -> l1 = l2.
Proof.
  induction l1 as [|a l1 IH]; intros l2 H1 H2 Hp.
  - apply Permutation_nil in Hp. now subst.
  - destruct l2 as [|b l2].
    + apply Permutation_sym, Permutation_nil in Hp. discriminate.
    + inversion H1 as [|? ? Hs1 Ha]; subst.
      inversion H2 as [|? ? Hs2 Hb]; subst.
      assert (Hab : a = b).
      { assert (Hin_a : In a (b :: l2))
          by (eapply Permutation_in; [exact Hp | left; reflexivity]).
        assert (Hin_b : In b (a :: l1))
          by (eapply Permutation_in; [apply Permutation_sym, Hp | left; reflexivity]).
        destruct Hin_a as [->|Hin_a]; [reflexivity|].
        destruct Hin_b as [->|Hin_b]; [reflexivity|].
        rewrite Forall_forall in Ha, Hb.
        exfalso. eapply lt_asym; [apply Ha, Hin_b | apply Hb, Hin_a]. }
      subst b. f_equal.
      apply IH; try assumption.
      eapply Permutation_cons_inv, Hp.
Qed.

(** With distinct keys the result of [sorted] is strictly ascending and
    does not depend on the order of arrival. *)
Lemma sorted_by_strict (l : list A) :
  NoDup (map key l) -> StronglySorted lt_key (sorted_by leb key l).
Proof.
  intros Hnd. apply sorted_distinct_strict; [apply sorted_by_sorted|].
  eapply Permutation_NoDup; [|exact Hnd].
  apply Permutation_map, Permutation_sym, sorted_by_perm.
Qed.

Lemma sorted_by_arrival_order (l l' : list A) :
  NoDup (map key l) -> Permutation l l' ->
  sorted_by leb key l = sorted_by leb key l'.
Proof.
  intros Hnd Hp.
  apply strict_sorted_unique.
  - apply sorted_by_strict, Hnd.
  - apply sorted_by_strict.
    eapply Permutation_NoDup; [apply Permutation_map, Hp | exact Hnd].
  - eapply perm_trans; [apply sorted_by_perm|].
    eapply perm_trans; [exact Hp | apply Permutation_sym, sorted_by_perm].
Qed.

End Sorting.

Lemma tuple_leb_total (a b : Z * Z) : tuple_leb a b = false -> tuple_leb b a = true.
Proof. unfold tuple_leb. destruct a, b; simpl. lia. Qed.

Lemma tuple_leb_trans (a b c : Z * Z) :
  tuple_leb a b = true -> tuple_leb b c = true -> tuple_leb a c = true.
Proof. unfold tuple_leb. destruct a, b, c; simpl. lia. Qed.

Lemma tuple_leb_lt (a b : Z * Z) : tuple_leb a b = true -> a <> b -> tuple_lt a b.
Proof.
  unfold tuple_leb, tuple_lt. destruct a as [a1 a2], b as [b1 b2]; simpl.
  intros H Hne.
  destruct (Z.eq_dec a1 b1) as [->|]; [|lia].
  destruct (Z.eq_dec a2 b2) as [->|]; [congruence | lia].
Qed.

Lemma tuple_lt_asym (a b : Z * Z) : tuple_lt a b -> tuple_lt b a -> False.
Proof. unfold tuple_lt. lia. Qed.

Lemma Z_leb_total (a b : Z) : (a <=? b) = false -> (b <=? a) = true.
Proof. lia. Qed.

Lemma Z_leb_trans (a b c : Z) :
  (a <=? b) = true -> (b <=? c) = true -> (a <=? c) = true.
Proof. lia. Qed.

Lemma Z_leb_lt (a b : Z) : (a <=? b) = true -> a <> b -> a < b.
Proof. lia. Qed.

Lemma py_in_In (x : Z) (l : list Z) : py_in x l = true <-> In x l.
Proof.
  unfold py_in. rewrite existsb_exists. split.
  - intros [y [Hy E]]. apply Z.eqb_eq in E. now subst.
  - intros H. exists x. split; [exact H | apply Z.eqb_refl].
Qed.

Lemma py_in_false (x : Z) (l : list Z) : py_in x l = false <-> ~ In x l.
Proof.
  rewrite <- py_in_In. destruct (py_in x l); split; congruence.
Qed.

Lemma list_sort_perm (l : list Z) : Permutation (list_sort l) l.
Proof. apply sorted_by_perm. Qed.

Lemma list_sort_In (x : Z) (l : list Z) : In x (list_sort l) <-> In x l.
Proof.
  split; apply Permutation_in;
    [apply list_sort_perm | apply Permutation_sym, list_sort_perm].
Qed.

(** Appending a new nonce and sorting keeps a list strictly ascending. *)
Lemma list_sort_app_strict (n : Z) (l : list Z) :
  ~ In n l -> NoDup l -> StronglySorted Z.lt (list_sort (l ++ [n])).
Proof.
  intros Hn Hnd.
  apply (sorted_by_strict Z.leb (fun z => z) Z.lt Z_leb_total Z_leb_trans Z_leb_lt).
  rewrite map_id.
  eapply Permutation_NoDup; [apply Permutation_cons_append|].
  constructor; assumption.
Qed.

Lemma strict_sorted_NoDup (l : list Z) : StronglySorted Z.lt l -> NoDup l.
Proof.
  induction 1 as [|x l Hs IH Hx]; constructor; [|exact IH].
  intros Hin. rewrite Forall_forall in Hx. specialize (Hx x Hin). lia.
Qed.

(** ** The state store *)

Section Store.

Context {W : Type}.
Implicit Types (w : World W) (n : Z).

Lemma mark_nonce_as_processed_eq n w :
  mark_nonce_as_processed n w
  = if py_in n (completed_nonces (state w)) then (Ok tt, w)
    else (Ok tt, saved (with_nonce n (state w)) w).
Proof.
  unfold mark_nonce_as_processed, is_nonce_processed, bind, get_state, ret.
  destruct (py_in n (completed_nonces (state w))); reflexivity.
Qed.

Lemma set_last_processed_block_eq n w :
  set_last_processed_block n w
  = (Ok tt, saved (mkState n (completed_nonces (state w))) w).
Proof. reflexivity. Qed.

Lemma py_in_with_nonce n (s : State) :
  py_in n (completed_nonces (with_nonce n s)) = true.
Proof.
  apply py_in_In. simpl. apply list_sort_In, in_or_app. right. now left.
Qed.

Lemma run_op_eq (o : store_op) w :
  exists s, run_op o w = (Ok tt, w) \/ run_op o w = (Ok tt, saved s w).
Proof.
  destruct o as [b|n]; simpl.
  - eexists. right. apply set_last_processed_block_eq.
  - exists (with_nonce n (state w)). rewrite mark_nonce_as_processed_eq.
    destruct (py_in n _); auto.
Qed.

Lemma run_op_sorted (o : store_op) w :
  StronglySorted Z.lt (completed_nonces (state w)) ->
  StronglySorted Z.lt (completed_nonces (state (snd (run_op o w)))).
Proof.
  intros H. destruct o as [b|n]; simpl.
  - exact H.
  - rewrite mark_nonce_as_processed_eq.
    destruct (py_in n (completed_nonces (state w))) eqn:E; simpl.
    + exact H.
    + apply list_sort_app_strict; [apply py_in_false, E | apply strict_sorted_NoDup, H].
Qed.

End Store.

Lemma strict_of_sorted_NoDup (l : list Z) :
  NoDup l -> StronglySorted Z.le l -> StronglySorted Z.lt l.
Proof.
  intros Hnd Hs. induction Hs as [|x l Hs IH Hx].
  - constructor.
  - inversion Hnd as [|? ? Hnotin Hnd']; subst.
    constructor; [apply IH, Hnd'|].
    rewrite Forall_forall in *. intros y Hy.
    specialize (Hx y Hy).
    assert (x <> y) by (intros ->; contradiction). lia.
Qed.

Lemma sorted_of_strict (l : list Z) :
  StronglySorted Z.lt l -> StronglySorted Z.le l.
Proof.
  induction 1 as [|x l Hs IH Hx]; constructor; [exact IH|].
  eapply Forall_impl; [|exact Hx]. intros; lia.
Qed.

Lemma run_ops_sorted {W} (ops : list store_op) :
  forall w : World W,
    StronglySorted Z.lt (completed_nonces (state w)) ->
    StronglySorted Z.lt (completed_nonces (state (snd (run_ops ops w)))).
Proof.
  induction ops as [|o ops IH]; intros w H; simpl.
  - exact H.
  - unfold bind. pose proof (run_op_sorted o w H) as H1.
    destruct (run_op_eq o w) as [s [E|E]]; rewrite E in *; simpl in *;
      apply IH, H1.
Qed.

(** C6. [mark_nonce_as_processed] is idempotent: a second call with the
    same nonce returns without touching the world (dictionary, state file
    and trace of writes are those left by the first call), and a call for
    a nonce that is already present changes nothing and writes nothing. *)
Theorem mark_nonce_as_processed_idempotent {W} (n : Z) (w : World W) :
  mark_nonce_as_processed n (snd (mark_nonce_as_processed n w))
  = (Ok tt, snd (mark_nonce_as_processed n w))
  /\ (py_in n (completed_nonces (state w)) = true ->
      mark_nonce_as_processed n w = (Ok tt, w)).
Proof.
  split.
  - rewrite (mark_nonce_as_processed_eq n w).
    destruct (py_in n (completed_nonces (state w))) eqn:E; simpl.
    + rewrite mark_nonce_as_processed_eq, E. reflexivity.
    + rewrite mark_nonce_as_processed_eq. simpl.
      change (list_sort (completed_nonces (state w) ++ [n]))
        with (completed_nonces (with_nonce n (state w))).
      rewrite py_in_with_nonce. reflexivity.
  - intros E. rewrite mark_nonce_as_processed_eq, E. reflexivity.
Qed.

Lemma mark_nonce_as_processed_idempotent_witness :
  py_in 5 (completed_nonces (state (world_at 100 [3; 5]))) = true
  /\ mark_nonce_as_processed 5 (world_at 100 [3; 5]) = (Ok tt, world_at 100 [3; 5]).
Proof.
  split; [reflexivity|].
  apply (proj2 (mark_nonce_as_processed_idempotent 5 (world_at 100 [3; 5]))).
  reflexivity.
Defined.

(** ** The text of the state file *)






















(** ** Persistence *)

Section Persistence.

Context {W : Type}.
Implicit Types (w : World W) (n : Z).







End Persistence.




(** C10. A duplicate-free, ascending list of completed nonces stays
    duplicate-free and ascending through any sequence of store operations
    ([mark_nonce_as_processed] and [set_last_processed_block]), and every
    such sequence runs to its end. *)
Theorem completed_nonces_stay_sorted {W} (ops : list store_op) (w : World W) :
  NoDup (completed_nonces (state w)) ->
  StronglySorted Z.le (completed_nonces (state w)) ->
  fst (run_ops ops w) = Ok tt
  /\ NoDup (completed_nonces (state (snd (run_ops ops w))))
  /\ StronglySorted Z.le (completed_nonces (state (snd (run_ops ops w)))).
Proof.
  intros Hnd Hs.
  pose proof (run_ops_sorted ops w (strict_of_sorted_NoDup _ Hnd Hs)) as H.
  split; [|split].
  - clear. revert w. induction ops as [|o ops IH]; intros w; simpl.
    + reflexivity.
    + unfold bind. destruct (run_op_eq o w) as [s [E|E]]; rewrite E; apply IH.
  - apply strict_sorted_NoDup, H.
  - apply sorted_of_strict, H.
Qed.

Lemma completed_nonces_stay_sorted_witness :
  completed_nonces
    (state (snd (run_ops [OpMark 4; OpMark 9; OpSetBlock 7; OpMark 4; OpMark 1]
                   (world_at 0 [2; 9]))))
  = [1; 2; 4; 9]
  /\ NoDup [1; 2; 4; 9] /\ StronglySorted Z.le [1; 2; 4; 9].
Proof.
  split; [reflexivity|].
  assert (Hnd : NoDup (completed_nonces (state (world_at 0 [2; 9])))).
  { simpl. repeat constructor; simpl; intuition lia. }
  assert (Hs : StronglySorted Z.le (completed_nonces (state (world_at 0 [2; 9])))).
  { simpl. repeat constructor; lia. }
  exact (proj2 (completed_nonces_stay_sorted
                  [OpMark 4; OpMark 9; OpSetBlock 7; OpMark 4; OpMark 1]
                  (world_at 0 [2; 9]) Hnd Hs)).
Defined.

(** ** Computations that only talk to the external collaborators *)

Section Frames.

Context {W : Type}.

Lemma ext_only_ret {A} (a : A) : ext_only (W:=W) (ret a).
Proof. intros [x d s t]. exists (Ok a), x. reflexivity. Qed.

Lemma ext_only_raise {A} (e : exn) : ext_only (W:=W) (A:=A) (raise e).
Proof. intros [x d s t]. exists (Raise e), x. reflexivity. Qed.

Lemma ext_only_lift {A} (r : result A) : ext_only (W:=W) (lift_result r).
Proof. intros [x d s t]. exists r, x. reflexivity. Qed.

Lemma ext_only_call {A} (f : W -> result A * W) : ext_only (call_ext f).
Proof.
  intros w. unfold call_ext. destruct (f (ext w)) as [r x].
  exists r, x. reflexivity.
Qed.

Lemma ext_only_bind {A B} (m : M W A) (k : A -> M W B) :
  ext_only m -> (forall a, ext_only (k a)) -> ext_only (bind m k).
Proof.
  intros Hm Hk w. unfold bind.
  destruct (Hm w) as [r [x E]]. rewrite E.
  destruct r as [a|e].
  - destruct (Hk a (with_ext x w)) as [r' [x' E']].
    exists r', x'. rewrite E'. reflexivity.
  - exists (Raise e), x. reflexivity.
Qed.

Lemma ext_only_try {A} (body : M W A) (catches : exn -> bool)
    (handler : exn -> M W A) :
  ext_only body -> (forall e, ext_only (handler e)) ->
  ext_only (try_except body catches handler).
Proof.
  intros Hb Hh w. unfold try_except.
  destruct (Hb w) as [r [x E]]. rewrite E.
  destruct r as [a|e].
  - exists (Ok a), x. reflexivity.
  - destruct (catches e).
    + destruct (Hh e (with_ext x w)) as [r' [x' E']].
      exists r', x'. rewrite E'. reflexivity.
    + exists (Raise e), x. reflexivity.
Qed.

End Frames.

Create HintDb frames.

#[local] Hint Resolve ext_only_ret ext_only_raise ext_only_lift ext_only_call
  : frames.

Ltac frames :=
  repeat first
    [ apply ext_only_bind; [|intros ?]
    | apply ext_only_try; [|intros ?]
    | solve [auto with frames]
    | match goal with
      | |- ext_only (match ?t with _ => _ end) => destruct t
      | |- ext_only (if ?b then _ else _) => destruct b
      end ].

(** ** Decoding and dispatch *)

Section RelayFacts.

Context {W RawLog : Type}.
Variable requests_get : string -> W -> result Response * W.
Variable float_of_str : string -> option Q.

Local Abbreviation fetch_gas_price :=
  (_fetch_gas_price_from_oracle requests_get float_of_str).
Local Abbreviation pse := (process_single_event requests_get float_of_str).
Local Abbreviation batch := (process_batch requests_get float_of_str).

Implicit Types (w : World W) (self : EventProcessor W RawLog)
  (h : BridgeContractHandler W RawLog) (e : DepositEvent).

Lemma fetch_gas_price_ext_only : ext_only fetch_gas_price.
Proof.
  unfold _fetch_gas_price_from_oracle, raise_for_status, response_json.
  frames.
Qed.

Lemma decode_loop_ext_only h (raw_logs : list RawLog) :
  forall acc, ext_only (decode_loop h raw_logs acc).
Proof.
  induction raw_logs as [|log rest IH]; intros acc; simpl.
  - frames.
  - apply ext_only_bind; [frames | intros a; apply IH].
Qed.

Lemma get_deposit_events_ext_only h (from_block to_block : Z) :
  ext_only (get_deposit_events h from_block to_block).
Proof.
  unfold get_deposit_events.
  apply ext_only_try; [|intros; frames].
  apply ext_only_bind; [frames | intros a; apply decode_loop_ext_only].
Qed.

(** The decoding loop either decodes every log or raises at the first
    one that fails; it never touches the world. *)
Lemma decode_loop_eq h (raw_logs : list RawLog) :
  forall acc w,
    decode_loop h raw_logs acc w
    = if forallb (decodes h) raw_logs
      then (Ok (acc ++ decode_dropping_failures h raw_logs), w)
      else (fst (decode_loop h raw_logs acc w), w).
Proof.
  induction raw_logs as [|log rest IH]; intros acc w; simpl.
  - unfold ret. rewrite app_nil_r. reflexivity.
  - unfold bind, lift_result, decodes at 1.
    destruct (process_log h log) as [d|err]; simpl.
    + rewrite IH. destruct (forallb (decodes h) rest).
      * rewrite <- app_assoc. reflexivity.
      * reflexivity.
    + reflexivity.
Qed.

Lemma decode_loop_raises h (raw_logs : list RawLog) :
  forall acc w,
    forallb (decodes h) raw_logs = false ->
    exists err, fst (decode_loop h raw_logs acc w) = Raise err.
Proof.
  induction raw_logs as [|log rest IH]; intros acc w; simpl.
  - discriminate.
  - unfold bind, lift_result, decodes at 1.
    destruct (process_log h log) as [d|err]; simpl.
    + intros H. apply IH, H.
    + intros _. exists err. reflexivity.
Qed.

End RelayFacts.

(** C2, as stated, fails: with a batch of three logs whose second entry
    does not decode, the handler returns no record at all, where dropping
    the failing log alone would leave the two records of the other
    logs. *)
Lemma a_failing_log_drops_the_batch :
  ~ drops_only_failing_logs
      (stub_handler "SourceChain" 105 batch_with_bad_log send_ok receipt_ok)
      101 105 (world_at 100 []).
Proof.
  intros H.
  specialize (H batch_with_bad_log tt eq_refl).
  vm_compute in H. discriminate H.
Qed.

(** C2, amended.  [get_deposit_events] never raises, so the scan of the
    window is not aborted; it returns the records of all logs, in arrival
    order, when every log of the batch decodes, and the empty list as soon
    as one log fails to decode or the fetch itself raises: the whole batch
    is dropped, not the failing log alone.  Nothing but the external state
    changes. *)
Theorem get_deposit_events_all_or_nothing {W RawLog}
    (h : BridgeContractHandler W RawLog) (from_block to_block : Z)
    (w : World W) :
  get_deposit_events h from_block to_block w
  = (Ok match fst (get_events (connector h) (address h) from_block to_block (ext w)) with
        | Ok raw_logs =>
            if forallb (decodes h) raw_logs
            then decode_dropping_failures h raw_logs
            else []
        | Raise _ => []
        end,
     with_ext (snd (get_events (connector h) (address h) from_block to_block (ext w))) w).
Proof.
  unfold get_deposit_events, try_except, bind, call_ext.
  destruct (get_events (connector h) (address h) from_block to_block (ext w))
    as [[raw_logs|err] x]; simpl; [|reflexivity].
  rewrite decode_loop_eq.
  destruct (forallb (decodes h) raw_logs) eqn:E.
  - reflexivity.
  - destruct (decode_loop_raises h raw_logs [] (with_ext x w) E) as [err Herr].
    unfold with_ext in Herr. rewrite Herr. reflexivity.
Qed.

(** ** Processing one record *)

Section Dispatch.

Context {W RawLog : Type}.
Variable requests_get : string -> W -> result Response * W.
Variable float_of_str : string -> option Q.

Local Abbreviation fetch_gas_price :=
  (_fetch_gas_price_from_oracle requests_get float_of_str).
Local Abbreviation pse := (process_single_event requests_get float_of_str).

Implicit Types (w : World W) (self : EventProcessor W RawLog)
  (e : DepositEvent).

(** The two filters: the record is settled and the world is not touched. *)
Lemma pse_skip self e w :
  destinationChainId e <> target_chain_id self
  \/ py_in (nonce e) (completed_nonces (state w)) = true ->
  pse self e w = (Ok true, w).
Proof.
  intros H. unfold process_single_event.
  destruct (destinationChainId e =? target_chain_id self) eqn:E; simpl.
  - destruct H as [H|H]; [apply Z.eqb_eq in E; contradiction|].
    unfold is_nonce_processed, bind, get_state, ret. cbv beta.
    rewrite H. reflexivity.
  - reflexivity.
Qed.

(** An oracle that raises stops the record before any dispatch. *)
Lemma pse_oracle_raises self e w err w1 :
  destinationChainId e = target_chain_id self ->
  py_in (nonce e) (completed_nonces (state w)) = false ->
  fetch_gas_price w = (Raise err, w1) ->
  pse self e w = (Raise err, w1).
Proof.
  intros Hd Hn Hf. unfold process_single_event.
  apply Z.eqb_eq in Hd. rewrite Hd. simpl.
  unfold is_nonce_processed. unfold bind at 1 2. unfold get_state, ret.
  cbv beta. rewrite Hn. unfold bind. rewrite Hf. reflexivity.
Qed.

(** Past the oracle: one dispatch, and the nonce is recorded exactly when
    the mint is confirmed. *)
Lemma pse_dispatch self e w gp w1 :
  destinationChainId e = target_chain_id self ->
  py_in (nonce e) (completed_nonces (state w)) = false ->
  fetch_gas_price w = (Ok gp, w1) ->
  exists x,
    pse self e w
    = if mint_confirmed self e (ext w1)
      then (Ok true,
            saved (with_nonce (nonce e) (state w))
              (mkWorld x (disk w) (state w) (trace w ++ [EMint e])))
      else (Ok false, mkWorld x (disk w) (state w) (trace w ++ [EMint e])).
Proof.
  intros Hd Hn Hf.
  destruct (fetch_gas_price_ext_only requests_get float_of_str w) as [r [x1 E1]].
  rewrite Hf in E1. injection E1 as _ ->.
  unfold process_single_event.
  apply Z.eqb_eq in Hd. rewrite Hd. simpl.
  unfold is_nonce_processed. unfold bind at 1 2. unfold get_state, ret.
  cbv beta. rewrite Hn. unfold bind at 1. rewrite Hf.
  unfold mint_confirmed, execute_mint, confirm_mint, bind, try_except, emit,
    call_ext, ret, raise. simpl.
  destruct (send_raw_transaction (connector (dest_handler self)) _ x1)
    as [[hsh|err] x2]; simpl; [|eexists; reflexivity].
  destruct hsh as [|c hsh]; simpl; [eexists; reflexivity|].
  destruct (get_transaction_receipt (connector (dest_handler self)) _ x2)
    as [[[rc|]|err] x3]; simpl; try (eexists; reflexivity).
  destruct (status rc) as [st|]; simpl; [|eexists; reflexivity].
  destruct (st =? 1); [|eexists; reflexivity].
  rewrite mark_nonce_as_processed_eq. simpl. rewrite Hn.
  eexists. reflexivity.
Qed.

(** The four outcomes of [process_single_event]. *)
Lemma pse_outcome self e w :
  pse self e w = (Ok true, w)
  \/ (exists err x, pse self e w = (Raise err, with_ext x w))
  \/ (exists x, pse self e w
                = (Ok false, mkWorld x (disk w) (state w) (trace w ++ [EMint e])))
  \/ (exists x, pse self e w
                = (Ok true,
                   saved (with_nonce (nonce e) (state w))
                     (mkWorld x (disk w) (state w) (trace w ++ [EMint e])))).
Proof.
  destruct (Z.eq_dec (destinationChainId e) (target_chain_id self)) as [Hd|Hd];
    [|left; apply pse_skip; auto].
  destruct (py_in (nonce e) (completed_nonces (state w))) eqn:Hn;
    [left; apply pse_skip; auto|].
  destruct (fetch_gas_price_ext_only requests_get float_of_str w) as [r [x1 E1]].
  destruct r as [gp|err].
  - destruct (pse_dispatch self e w gp _ Hd Hn E1) as [x Hx].
    destruct (mint_confirmed self e _); eauto.
  - right; left. exists err, x1. eapply pse_oracle_raises; eauto.
Qed.

End Dispatch.

(** C7. A record for another chain, and a record whose nonce is already
    completed, are settled ([True]) without a mint submission: the world,
    and with it the trace of dispatcher calls and the external state, is
    left as it was. *)
Theorem process_single_event_skips {W RawLog}
    (requests_get : string -> W -> result Response * W)
    (float_of_str : string -> option Q)
    (self : EventProcessor W RawLog) (e : DepositEvent) (w : World W) :
  destinationChainId e <> target_chain_id self
  \/ py_in (nonce e) (completed_nonces (state w)) = true ->
  process_single_event requests_get float_of_str self e w = (Ok true, w)
  /\ mints (trace (snd (process_single_event requests_get float_of_str self e w)))
     = mints (trace w).
Proof.
  intros H. rewrite (pse_skip requests_get float_of_str self e w H).
  split; reflexivity.
Qed.

Lemma process_single_event_skips_witness :
  (let e := mkDepositEvent "0xbb" "0xcc" 5 56 1 "0xfeed" 0 in
   let w := world_at 100 [] in
   destinationChainId e <> 97
   /\ process_single_event oracle_up float_of_digits
        (relay 105 four_deposits send_ok receipt_ok) e w = (Ok true, w))
  /\ (let e := DepositEvent_of (deposit 2 0) in
      let w := world_at 100 [1; 2] in
      py_in (nonce e) (completed_nonces (state w)) = true
      /\ process_single_event oracle_up float_of_digits
           (relay 105 four_deposits send_ok receipt_ok) e w = (Ok true, w)).
Proof.
  split; cbv zeta.
  - assert (H : 56 <> 97) by lia.
    split; [exact H|].
    exact (proj1 (process_single_event_skips oracle_up float_of_digits
                    (relay 105 four_deposits send_ok receipt_ok)
                    (mkDepositEvent "0xbb" "0xcc" 5 56 1 "0xfeed" 0)
                    (world_at 100 []) (or_introl H))).
  - split; [reflexivity|].
    exact (proj1 (process_single_event_skips oracle_up float_of_digits
                    (relay 105 four_deposits send_ok receipt_ok)
                    (DepositEvent_of (deposit 2 0))
                    (world_at 100 [1; 2]) (or_intror eq_refl))).
Defined.

(** C4. A nonce enters [completed_nonces] only after its mint is
    confirmed.  For a record that reaches the dispatch (right chain, nonce
    not completed, oracle answered): when the submission returns a handle
    and the receipt fetched for it has status 1, the result is [True] and
    the nonce is inserted and saved; when the submission returns no
    handle, or the receipt is missing, lacks a status, reports another
    status, or fetching it raises, the result is [False] and neither the
    dictionary nor the file changes.  Conversely, whenever
    [process_single_event] changes the dictionary, the record went through
    a confirmed mint. *)
Theorem nonce_completed_iff_mint_confirmed {W RawLog}
    (requests_get : string -> W -> result Response * W)
    (float_of_str : string -> option Q)
    (self : EventProcessor W RawLog) (e : DepositEvent) (w : World W) :
  let r := fst (process_single_event requests_get float_of_str self e w) in
  let w' := snd (process_single_event requests_get float_of_str self e w) in
  (forall gp w1,
     destinationChainId e = target_chain_id self ->
     py_in (nonce e) (completed_nonces (state w)) = false ->
     _fetch_gas_price_from_oracle requests_get float_of_str w = (Ok gp, w1) ->
     if mint_confirmed self e (ext w1)
     then r = Ok true
          /\ completed_nonces (state w')
             = list_sort (completed_nonces (state w) ++ [nonce e])
          /\ In (nonce e) (completed_nonces (state w'))
          /\ disk w' = FileJson (state w')
     else r = Ok false /\ state w' = state w /\ disk w' = disk w)
  /\ (state w' <> state w ->
      r = Ok true
      /\ mints (trace w') = mints (trace w) ++ [e]
      /\ exists gp w1,
           _fetch_gas_price_from_oracle requests_get float_of_str w = (Ok gp, w1)
           /\ mint_confirmed self e (ext w1) = true).
Proof.
  cbv zeta. split.
  - intros gp w1 Hd Hn Hf.
    destruct (pse_dispatch requests_get float_of_str self e w gp w1 Hd Hn Hf)
      as [x Hx].
    rewrite Hx. destruct (mint_confirmed self e (ext w1)); simpl.
    + repeat split. apply list_sort_In, in_or_app. right. now left.
    + repeat split.
  - intros Hch.
    destruct (Z.eq_dec (destinationChainId e) (target_chain_id self)) as [Hd|Hd].
    2:{ rewrite (pse_skip requests_get float_of_str self e w) in Hch by auto.
        now contradiction Hch. }
    destruct (py_in (nonce e) (completed_nonces (state w))) eqn:Hn.
    1:{ rewrite (pse_skip requests_get float_of_str self e w) in Hch by auto.
        now contradiction Hch. }
    destruct (fetch_gas_price_ext_only requests_get float_of_str w)
      as [[gp|err] [x1 E1]].
    + destruct (pse_dispatch requests_get float_of_str self e w gp _ Hd Hn E1)
        as [x Hx].
      rewrite Hx in *.
      destruct (mint_confirmed self e (ext (with_ext x1 w))) eqn:Hc; simpl in *.
      * split; [reflexivity|]. split.
        -- clear. induction (trace w) as [|[m|s] t IH]; simpl; congruence.
        -- exists gp, (with_ext x1 w). auto.
      * now contradiction Hch.
    + rewrite (pse_oracle_raises requests_get float_of_str self e w err _ Hd Hn E1)
        in Hch.
      now contradiction Hch.
Qed.

Lemma nonce_completed_iff_mint_confirmed_witness :
  let self := relay 105 four_deposits send_failing_on_3 receipt_ok in
  let w := world_at 100 [] in
  let pse := process_single_event oracle_up float_of_digits self in
  (destinationChainId (DepositEvent_of (deposit 1 0)) = target_chain_id self
   /\ py_in 1 (completed_nonces (state w)) = false
   /\ _fetch_gas_price_from_oracle oracle_up float_of_digits w = (Ok 30%Q, w)
   /\ mint_confirmed self (DepositEvent_of (deposit 1 0)) (ext w) = true)
  /\ (fst (pse (DepositEvent_of (deposit 1 0)) w) = Ok true
      /\ completed_nonces (state (snd (pse (DepositEvent_of (deposit 1 0)) w)))
         = list_sort ([] ++ [1]))
  /\ mint_confirmed self (DepositEvent_of (deposit 3 0)) (ext w) = false
  /\ (fst (pse (DepositEvent_of (deposit 3 0)) w) = Ok false
      /\ state (snd (pse (DepositEvent_of (deposit 3 0)) w)) = state w).
Proof.
  cbv zeta.
  pose proof (proj1 (nonce_completed_iff_mint_confirmed oracle_up float_of_digits
                       (relay 105 four_deposits send_failing_on_3 receipt_ok)
                       (DepositEvent_of (deposit 1 0)) (world_at 100 []))
                30%Q (world_at 100 []) eq_refl eq_refl eq_refl) as H1.
  pose proof (proj1 (nonce_completed_iff_mint_confirmed oracle_up float_of_digits
                       (relay 105 four_deposits send_failing_on_3 receipt_ok)
                       (DepositEvent_of (deposit 3 0)) (world_at 100 []))
                30%Q (world_at 100 []) eq_refl eq_refl eq_refl) as H3.
  cbv zeta in H1, H3.
  change (mint_confirmed (relay 105 four_deposits send_failing_on_3 receipt_ok)
            (DepositEvent_of (deposit 1 0)) (ext (world_at 100 [])))
    with true in H1.
  change (mint_confirmed (relay 105 four_deposits send_failing_on_3 receipt_ok)
            (DepositEvent_of (deposit 3 0)) (ext (world_at 100 [])))
    with false in H3.
  cbv iota in H1, H3.
  split; [repeat split|].
  split; [exact (conj (proj1 H1) (proj1 (proj2 H1)))|].
  split; [reflexivity|].
  exact (conj (proj1 H3) (proj1 (proj2 H3))).
Defined.

(** ** The batch loop *)

Lemma subseq_nil_l {A} (l : list A) : subseq [] l.
Proof. induction l; constructor; assumption. Qed.

Lemma subseq_In {A} (l1 l2 : list A) :
  subseq l1 l2 -> forall x, In x l1 -> In x l2.
Proof.
  induction 1 as [|y l1 l2 H IH|y l1 l2 H IH]; intros x Hx; simpl in *.
  - exact Hx.
  - right. apply IH, Hx.
  - destruct Hx as [->|Hx]; [now left | right; apply IH, Hx].
Qed.

Lemma subseq_sorted {A} (R : A -> A -> Prop) (l1 l2 : list A) :
  subseq l1 l2 -> StronglySorted R l2 -> StronglySorted R l1.
Proof.
  induction 1 as [|y l1 l2 H IH|y l1 l2 H IH]; intros Hs.
  - constructor.
  - inversion Hs; subst. apply IH. assumption.
  - inversion Hs as [|? ? Hs' Hy]; subst.
    constructor; [apply IH, Hs'|].
    rewrite Forall_forall in *. intros z Hz.
    apply Hy. eapply subseq_In; eassumption.
Qed.

Lemma mints_app (t1 t2 : list effect) : mints (t1 ++ t2) = mints t1 ++ mints t2.
Proof.
  induction t1 as [|[m|s] t1 IH]; simpl; [reflexivity | now rewrite IH | exact IH].
Qed.

Section Batch.

Context {W RawLog : Type}.
Variable requests_get : string -> W -> result Response * W.
Variable float_of_str : string -> option Q.

Local Abbreviation pse := (process_single_event requests_get float_of_str).
Local Abbreviation batch := (process_batch requests_get float_of_str).

Implicit Types (w : World W) (self : EventProcessor W RawLog).

(** The mints of a batch are records of the batch, in the order of the
    batch. *)
Lemma process_batch_mints self (events : list DepositEvent) :
  forall w, exists ms,
    mints (trace (snd (batch self events w))) = mints (trace w) ++ ms
    /\ subseq ms events.
Proof.
  induction events as [|e rest IH]; intros w; simpl.
  - exists []. rewrite app_nil_r. split; [reflexivity | constructor].
  - unfold bind.
    destruct (pse_outcome requests_get float_of_str self e w)
      as [E|[[err [x E]]|[[x E]|[x E]]]]; rewrite E; simpl.
    + destruct (IH w) as [ms [Hm Hs]].
      exists ms. split; [exact Hm | apply subseq_skip, Hs].
    + exists []. rewrite app_nil_r. split; [reflexivity | apply subseq_nil_l].
    + exists [e]. rewrite mints_app. split; [reflexivity|].
      apply subseq_keep, subseq_nil_l.
    + match goal with |- context [batch self rest ?w2] =>
        destruct (IH w2) as [ms [Hm Hs]] end.
      exists (e :: ms). rewrite Hm. simpl. rewrite !mints_app. simpl.
      rewrite app_nil_r, <- app_assoc. split; [reflexivity|].
      apply subseq_keep, Hs.
Qed.

End Batch.

(** C5. For decoded records with distinct [(nonce, log_index)] pairs, the
    records are processed in the order [sorted] puts them in, which is
    strictly ascending in [(nonce, log_index)] and is a rearrangement of
    the records; the mint submissions of the window are records of that
    list in that order, hence strictly ascending too; and any other order
    of arrival of the same records gives the same run. *)
Theorem dispatch_in_ascending_order {W RawLog}
    (requests_get : string -> W -> result Response * W)
    (float_of_str : string -> option Q)
    (self : EventProcessor W RawLog) (events : list DepositEvent)
    (w : World W) :
  NoDup (map sort_key events) ->
  let order := sorted_by tuple_leb sort_key events in
  let w' := snd (process_events requests_get float_of_str self events w) in
  Permutation order events
  /\ StronglySorted key_lt order
  /\ process_events requests_get float_of_str self events w
     = process_batch requests_get float_of_str self order w
  /\ (exists ms,
        mints (trace w') = mints (trace w) ++ ms
        /\ subseq ms order
        /\ StronglySorted key_lt ms)
  /\ (forall events',
        Permutation events events' ->
        process_events requests_get float_of_str self events' w
        = process_events requests_get float_of_str self events w).
Proof.
  intros Hnd order w'.
  assert (Hsorted : StronglySorted key_lt order).
  { apply (sorted_by_strict tuple_leb sort_key tuple_lt
             tuple_leb_total tuple_leb_trans tuple_leb_lt), Hnd. }
  assert (Hrun : process_events requests_get float_of_str self events w
                 = process_batch requests_get float_of_str self order w).
  { subst order. destruct events; reflexivity. }
  split; [apply sorted_by_perm|].
  split; [exact Hsorted|].
  split; [exact Hrun|].
  split.
  - subst w'. rewrite Hrun.
    destruct (process_batch_mints requests_get float_of_str self order w)
      as [ms [Hm Hs]].
    exists ms. split; [exact Hm|]. split; [exact Hs|].
    eapply subseq_sorted; eassumption.
  - intros events' Hp.
    assert (Hsame : sorted_by tuple_leb sort_key events
                    = sorted_by tuple_leb sort_key events').
    { apply (sorted_by_arrival_order tuple_leb sort_key tuple_lt
               tuple_leb_total tuple_leb_trans tuple_leb_lt tuple_lt_asym);
        assumption. }
    unfold process_events. rewrite <- Hsame.
    destruct events as [|a l], events' as [|a' l']; try reflexivity.
    apply Permutation_sym, Permutation_nil in Hp. discriminate.
Qed.

Lemma dispatch_in_ascending_order_witness :
  let self := relay 105 [] send_ok receipt_ok in
  let w := world_at 100 [] in
  let w' := snd (process_events oracle_up float_of_digits self scenario_deposits w) in
  NoDup (map sort_key scenario_deposits)
  /\ map sort_key (sorted_by tuple_leb sort_key scenario_deposits)
     = [(5, 0); (5, 1); (7, 0); (9, 0)]
  /\ map sort_key (mints (trace w')) = [(5, 0); (7, 0); (9, 0)]
  /\ exists ms,
       mints (trace w') = mints (trace w) ++ ms
       /\ subseq ms (sorted_by tuple_leb sort_key scenario_deposits)
       /\ StronglySorted key_lt ms.
Proof.
  cbv zeta.
  assert (Hnd : NoDup (map sort_key scenario_deposits)).
  { unfold scenario_deposits. cbv [map sort_key DepositEvent_of deposit nonce log_index args_nonce logIndex].
    repeat (apply NoDup_cons; [simpl; intuition congruence|]).
    apply NoDup_nil. }
  split; [exact Hnd|].
  split; [reflexivity|].
  split; [reflexivity|].
  exact (proj1 (proj2 (proj2 (proj2
           (dispatch_in_ascending_order oracle_up float_of_digits
              (relay 105 [] send_ok receipt_ok) scenario_deposits
              (world_at 100 []) Hnd))))).
Defined.

(** ** The main loop *)

(** Whatever the batch loop did, stopped early or not, an iteration that
    gets through it without an exception commits [to_block]. *)
Lemma run_iteration_commits {W RawLog}
    (requests_get : string -> W -> result Response * W)
    (float_of_str : string -> option Q)
    (self : EventProcessor W RawLog) (w w1 w2 : World W)
    (latest : Z) (x : W) (events : list DepositEvent) :
  get_latest_block_number (connector (source_handler self)) (ext w) = (Ok latest, x) ->
  last_processed_block (state w) + 1 <= latest ->
  get_deposit_events (source_handler self)
    (last_processed_block (state w) + 1)
    (Z.min latest (last_processed_block (state w) + 1 + block_scan_range self))
    (with_ext x w) = (Ok events, w1) ->
  process_events requests_get float_of_str self events w1 = (Ok tt, w2) ->
  run_iteration requests_get float_of_str self w
  = (Ok tt,
     saved (mkState
              (Z.min latest (last_processed_block (state w) + 1 + block_scan_range self))
              (completed_nonces (state w2))) w2).
Proof.
  intros Hl Hle Hg Hp.
  unfold run_iteration, try_except, get_last_processed_block.
  unfold bind at 1 2 3. unfold get_state, ret. cbv beta iota.
  unfold call_ext. rewrite Hl. cbv beta iota. unfold scan_window. cbv zeta iota.
  destruct (last_processed_block (state w) + 1 >? latest) eqn:E; [lia|].
  unfold bind at 1. fold (with_ext x w). rewrite Hg.
  unfold bind at 1. rewrite Hp.
  rewrite set_last_processed_block_eq. reflexivity.
Qed.

Lemma scan_window_size {W RawLog} (self : EventProcessor W RawLog)
    (last latest : Z) :
  last + 1 + block_scan_range self <= latest ->
  window_size (scan_window self last latest) = block_scan_range self + 1.
Proof. unfold window_size, scan_window. simpl. lia. Qed.

(** C1 (the code departs from it).  State at block 100; the window
    [101..105] holds four deposits and the submission for nonce 3 fails.
    The loop stops at record 3 (record 4 is never dispatched, nonces 1 and
    2 are completed), yet the iteration still commits block 105 to the
    dictionary and to the file; the next iteration starts at block 106 and
    dispatches nothing, so records 3 and 4 are never retried. *)
Theorem failed_record_still_advances_block :
  let self := relay 105 four_deposits send_failing_on_3 receipt_ok in
  let w := world_at 100 [] in
  let w' := snd (run_iteration oracle_up float_of_digits self w) in
  let w'' := snd (run oracle_up float_of_digits self 2 w) in
  last_processed_block (state w) = 100
  /\ map nonce (mints (trace w')) = [1; 2; 3]
  /\ completed_nonces (state w') = [1; 2]
  /\ saves (trace w')
     = [mkState 100 [1]; mkState 100 [1; 2]; mkState 105 [1; 2]]
  /\ last_processed_block (state w') = 105
  /\ disk w' = FileJson (mkState 105 [1; 2])
  /\ mints (trace w'') = mints (trace w')
  /\ state w'' = state w'.
Proof. cbv zeta. repeat apply conj; vm_compute; reflexivity. Qed.

(** C3 (the code departs from it).  With the scan range of 100 set by the
    constructor, state at block 0 and the source chain at height 500, the
    window is [1..101]: 101 blocks, one more than the range, where the
    formula of the specification gives [1..100]; the iteration commits
    block 101. *)
Theorem scan_window_one_block_too_wide :
  let self := relay 500 [] send_ok receipt_ok in
  let w := world_at 0 [] in
  block_scan_range self = 100
  /\ scan_window self 0 500 = (1, 101)
  /\ window_size (scan_window self 0 500) = 101
  /\ spec_scan_window (block_scan_range self) 0 500 = (1, 100)
  /\ last_processed_block
       (state (snd (run_iteration oracle_up float_of_digits self w))) = 101.
Proof. cbv zeta. repeat apply conj; vm_compute; reflexivity. Qed.

(** An answer the server gives with a success status and a JSON body that
    has no dictionary under ["result"] makes the lookup raise: the
    exceptions of indexing are not request exceptions. *)
Lemma fetch_gas_price_raises {W}
    (requests_get : string -> W -> result Response * W)
    (float_of_str : string -> option Q)
    (w : World W) (response : Response) (x : W) (gas_data res : json) :
  requests_get oracle_url (ext w) = (Ok response, x) ->
  (400 <=? status_code response) && (status_code response <? 600) = false ->
  body response = Some gas_data ->
  py_getitem gas_data "result" = Ok res ->
  (forall d, res <> JDict d) ->
  _fetch_gas_price_from_oracle requests_get float_of_str w
  = (Raise TypeError, with_ext x w).
Proof.
  intros Hget Hst Hbody Hres Hnd.
  unfold _fetch_gas_price_from_oracle, try_except, bind, call_ext,
    raise_for_status, response_json, lift_result, ret.
  rewrite Hget, Hst, Hbody. cbv beta iota. rewrite Hres.
  destruct res; try reflexivity.
  exfalso. eapply Hnd. reflexivity.
Qed.

(** C8 (the code departs from it).  The oracle's server is reachable but
    rejects the request: HTTP 200 with a body whose ["result"] is a
    message.  Indexing that string raises [TypeError], which the
    [except RequestException] clause does not catch: the lookup does not
    return the default, [process_single_event] raises before any dispatch,
    and the iteration ends with nothing minted and nothing committed.  When
    the request itself fails the default 50.0 is returned and the record is
    dispatched. *)
Theorem oracle_error_escapes_the_fallback :
  let self := relay 105 four_deposits send_ok receipt_ok in
  let w := world_at 100 [] in
  _fetch_gas_price_from_oracle oracle_rejecting float_of_digits w
  = (Raise TypeError, w)
  /\ process_single_event oracle_rejecting float_of_digits self
       (DepositEvent_of (deposit 1 0)) w = (Raise TypeError, w)
  /\ run_iteration oracle_rejecting float_of_digits self w = (Ok tt, w)
  /\ _fetch_gas_price_from_oracle oracle_down float_of_digits w
     = (Ok default_gas_price, w)
  /\ map nonce
       (mints (trace (snd (process_single_event oracle_down float_of_digits self
                             (DepositEvent_of (deposit 1 0)) w)))) = [1].
Proof. cbv zeta. repeat apply conj; vm_compute; reflexivity. Qed.

(** * Further properties of the engine *)

(** ** One record, all cases *)

Section Outcome.

Context {W RawLog : Type}.
Variable requests_get : string -> W -> result Response * W.
Variable float_of_str : string -> option Q.

Local Abbreviation pse := (process_single_event requests_get float_of_str).
Local Abbreviation batch := (process_batch requests_get float_of_str).

Implicit Types (w : World W) (self : EventProcessor W RawLog)
  (e : DepositEvent).

Lemma pse_cases self e w :
  (pse self e w = (Ok true, w) /\ ~ fresh_for self w e)
  \/ (fresh_for self w e
      /\ ((exists err x, pse self e w = (Raise err, with_ext x w))
          \/ (exists x, pse self e w
                        = (Ok false,
                           mkWorld x (disk w) (state w) (trace w ++ [EMint e])))
          \/ (exists x, pse self e w
                        = (Ok true,
                           saved (with_nonce (nonce e) (state w))
                             (mkWorld x (disk w) (state w)
                                (trace w ++ [EMint e])))))).
Proof.
  unfold fresh_for.
  destruct (Z.eq_dec (destinationChainId e) (target_chain_id self)) as [Hd|Hd].
  2:{ left. split; [apply pse_skip; auto | tauto]. }
  destruct (py_in (nonce e) (completed_nonces (state w))) eqn:Hn.
  1:{ left. split; [apply pse_skip; auto | intros [_ H]; discriminate]. }
  right. split; [auto|].
  destruct (fetch_gas_price_ext_only requests_get float_of_str w)
    as [[gp|err] [x1 E1]].
  - destruct (pse_dispatch requests_get float_of_str self e w gp _ Hd Hn E1)
      as [x Hx].
    destruct (mint_confirmed self e _); eauto.
  - left. exists err, x1. eapply pse_oracle_raises; eauto.
Qed.

End Outcome.

(** ** What a batch keeps *)

Lemma with_nonce_In (n m : Z) (s : State) :
  In n (completed_nonces (with_nonce m s)) <-> n = m \/ In n (completed_nonces s).
Proof.
  simpl. rewrite list_sort_In, in_app_iff. simpl. intuition.
Qed.

Lemma fresh_for_earlier {W RawLog} (self : EventProcessor W RawLog)
    (w w1 : World W) (m : DepositEvent) :
  nonces_kept w w1 -> fresh_for self w1 m -> fresh_for self w m.
Proof.
  intros Hk [Hd Hn]. split; [exact Hd|].
  apply py_in_false. intros Hin. apply py_in_false in Hn. apply Hn, Hk, Hin.
Qed.

Section BatchInvariant.

Context {W RawLog : Type}.
Variable requests_get : string -> W -> result Response * W.
Variable float_of_str : string -> option Q.

Local Abbreviation pse := (process_single_event requests_get float_of_str).
Local Abbreviation batch := (process_batch requests_get float_of_str).

Implicit Types (w : World W) (self : EventProcessor W RawLog).

Lemma process_batch_inv self (events : list DepositEvent) :
  forall w,
    let w' := snd (batch self events w) in
    last_processed_block (state w') = last_processed_block (state w)
    /\ nonces_kept w w'
    /\ (StronglySorted Z.lt (completed_nonces (state w)) ->
        StronglySorted Z.lt (completed_nonces (state w')))
    /\ exists ms,
         mints (trace w') = mints (trace w) ++ ms
         /\ Forall (fresh_for self w) ms
         /\ NoDup (map nonce ms)
         /\ (forall ms' m, ms = ms' ++ [m] ->
               Forall (fun m' => In (nonce m') (completed_nonces (state w'))) ms')
         /\ (forall n, In n (completed_nonces (state w')) ->
               In n (completed_nonces (state w)) \/ In n (map nonce ms)).
Proof.
  induction events as [|e rest IH]; intros w; cbv zeta.
  - simpl. repeat apply conj; try (intros; assumption); try reflexivity.
    + intros n H; exact H.
    + exists []. rewrite app_nil_r.
      repeat apply conj; try constructor; auto.
      intros ms' m H. destruct ms'; discriminate.
  - simpl. unfold bind.
    destruct (pse_cases requests_get float_of_str self e w)
      as [[E Hnf]|[Hf [[err [x E]]|[[x E]|[x E]]]]]; rewrite E; simpl.
    + apply IH.
    + repeat apply conj; try (intros; assumption); try reflexivity.
      * intros n H; exact H.
      * exists []. rewrite app_nil_r.
        repeat apply conj; try constructor; auto.
        intros ms' m H. destruct ms'; discriminate.
    + repeat apply conj; try (intros; assumption); try reflexivity.
      * intros n H; exact H.
      * exists [e]. rewrite mints_app.
        repeat apply conj; try reflexivity.
        -- constructor; [exact Hf | constructor].
        -- simpl. constructor; [intros [] | constructor].
        -- intros ms' m H. change [e] with ([] ++ [e]) in H.
           apply app_inj_tail in H. destruct H as [<- _]. constructor.
        -- intros n H. left. exact H.
    + match goal with |- context [batch self rest ?u] =>
        set (w2 := u); specialize (IH w2) end.
      cbv zeta in IH.
      destruct IH as [Hb [Hk [Hs [ms [Hm [Hfr [Hnd [Hlast Horig]]]]]]]].
      assert (Hk2 : nonces_kept w w2).
      { intros n Hn. subst w2. simpl state. apply with_nonce_In. right. exact Hn. }
      assert (Hin2 : In (nonce e) (completed_nonces (state w2))).
      { subst w2. simpl state. apply with_nonce_In. left. reflexivity. }
      repeat apply conj.
      * rewrite Hb. reflexivity.
      * intros n Hn. apply Hk, Hk2, Hn.
      * intros Hsorted. apply Hs. subst w2. simpl.
        destruct Hf as [_ Hn].
        apply list_sort_app_strict;
          [apply py_in_false, Hn | apply strict_sorted_NoDup, Hsorted].
      * exists (e :: ms). repeat apply conj.
        -- rewrite Hm. subst w2. simpl trace. rewrite !mints_app. simpl.
           rewrite app_nil_r, <- app_assoc. reflexivity.
        -- constructor; [exact Hf|].
           eapply Forall_impl; [|exact Hfr].
           intros m. apply fresh_for_earlier, Hk2.
        -- simpl. constructor; [|exact Hnd].
           intros Hin. apply in_map_iff in Hin. destruct Hin as [m [Heq Hin]].
           rewrite Forall_forall in Hfr. destruct (Hfr m Hin) as [_ Hn].
           apply py_in_false in Hn. apply Hn. rewrite Heq. exact Hin2.
        -- intros ms' m H. destruct ms' as [|a ms'].
           ++ constructor.
           ++ simpl in H. injection H as <- H.
              constructor; [apply Hk, Hin2 | eapply Hlast, H].
        -- intros n Hn. destruct (Horig n Hn) as [H|H].
           ++ subst w2. simpl state in H. apply with_nonce_In in H.
              destruct H as [->|H]; [right; left; reflexivity | left; exact H].
           ++ right. right. exact H.
Qed.

End BatchInvariant.

(** ** What an iteration keeps *)

Lemma mints_saved {W} (s : State) (w : World W) :
  mints (trace (saved s w)) = mints (trace w).
Proof. simpl. rewrite mints_app. simpl. apply app_nil_r. Qed.

Section Iteration.

Context {W RawLog : Type}.
Variable requests_get : string -> W -> result Response * W.
Variable float_of_str : string -> option Q.

Local Abbreviation batch := (process_batch requests_get float_of_str).
Local Abbreviation events_loop := (process_events requests_get float_of_str).
Local Abbreviation iteration := (run_iteration requests_get float_of_str).

Implicit Types (w : World W) (self : EventProcessor W RawLog).

Lemma process_events_eq self (events : list DepositEvent) w :
  events_loop self events w
  = batch self (sorted_by tuple_leb sort_key events) w.
Proof. destruct events; reflexivity. Qed.

(** The three ways an iteration ends: nothing but external calls happened;
    the batch loop raised; the window was committed. *)
Lemma run_iteration_shape self w :
  (exists x, iteration self w = (Ok tt, with_ext x w))
  \/ (exists x events,
        iteration self w = (Ok tt, snd (events_loop self events (with_ext x w))))
  \/ (exists latest x0 x events,
        get_latest_block_number (connector (source_handler self)) (ext w)
        = (Ok latest, x0)
        /\ last_processed_block (state w) + 1 <= latest
        /\ fst (events_loop self events (with_ext x w)) = Ok tt
        /\ iteration self w
           = (Ok tt,
              saved (mkState
                       (Z.min latest
                          (last_processed_block (state w) + 1 + block_scan_range self))
                       (completed_nonces
                          (state (snd (events_loop self events (with_ext x w))))))
                (snd (events_loop self events (with_ext x w))))).
Proof.
  remember (iteration self w) as res eqn:Hres.
  unfold run_iteration, try_except, get_last_processed_block in Hres.
  unfold bind at 1 2 3 in Hres. unfold get_state, ret in Hres.
  cbv beta iota in Hres. unfold call_ext in Hres.
  destruct (get_latest_block_number (connector (source_handler self)) (ext w))
    as [[latest|err] x0] eqn:Hl; cbv beta iota in Hres;
    [|left; exists x0; exact Hres].
  unfold scan_window in Hres. cbv zeta iota in Hres.
  destruct (last_processed_block (state w) + 1 >? latest) eqn:E;
    [left; exists x0; exact Hres|].
  unfold bind at 1 in Hres. fold (with_ext x0 w) in Hres.
  destruct (get_deposit_events_ext_only (source_handler self)
              (last_processed_block (state w) + 1)
              (Z.min latest (last_processed_block (state w) + 1 + block_scan_range self))
              (with_ext x0 w)) as [[events|err] [x Hg]]; rewrite Hg in Hres;
    [|left; exists x; exact Hres].
  change (with_ext x (with_ext x0 w)) with (with_ext x w) in Hres.
  unfold bind at 1 in Hres.
  destruct (events_loop self events (with_ext x w)) as [[[]|err] w2] eqn:Hp.
  - right; right. exists latest, x0, x, events. rewrite Hp. simpl.
    rewrite set_last_processed_block_eq in Hres.
    repeat apply conj; try reflexivity; [lia | exact Hres].
  - right; left. exists x, events. rewrite Hp. exact Hres.
Qed.

Lemma run_iteration_inv self w :
  let w' := snd (iteration self w) in
  fst (iteration self w) = Ok tt
  /\ nonces_kept w w'
  /\ (StronglySorted Z.lt (completed_nonces (state w)) ->
      StronglySorted Z.lt (completed_nonces (state w')))
  /\ (last_processed_block (state w') = last_processed_block (state w)
      \/ exists latest x0,
           get_latest_block_number (connector (source_handler self)) (ext w)
           = (Ok latest, x0)
           /\ last_processed_block (state w) + 1 <= latest
           /\ last_processed_block (state w')
              = Z.min latest
                  (last_processed_block (state w) + 1 + block_scan_range self))
  /\ exists ms,
       mints (trace w') = mints (trace w) ++ ms
       /\ Forall (fresh_for self w) ms
       /\ NoDup (map nonce ms)
       /\ (forall n, In n (completed_nonces (state w')) ->
             In n (completed_nonces (state w)) \/ In n (map nonce ms)).
Proof.
  cbv zeta.
  destruct (run_iteration_shape self w)
    as [[x E]|[[x [events E]]|[latest [x0 [x [events [Hl [Hle [Hok E]]]]]]]]];
    rewrite E; simpl fst; simpl snd.
  - repeat apply conj; try reflexivity; try (intros; assumption).
    + intros n H; exact H.
    + left. reflexivity.
    + exists []. rewrite app_nil_r. repeat apply conj; try constructor; auto.
  - rewrite process_events_eq.
    destruct (process_batch_inv requests_get float_of_str self
                (sorted_by tuple_leb sort_key events) (with_ext x w))
      as [Hb [Hk [Hs [ms [Hm [Hfr [Hnd [_ Horig]]]]]]]].
    repeat apply conj; try assumption; try reflexivity.
    + left. exact Hb.
    + exists ms. repeat apply conj; assumption.
  - rewrite process_events_eq.
    destruct (process_batch_inv requests_get float_of_str self
                (sorted_by tuple_leb sort_key events) (with_ext x w))
      as [Hb [Hk [Hs [ms [Hm [Hfr [Hnd [_ Horig]]]]]]]].
    repeat apply conj; try assumption; try reflexivity.
    + right. exists latest, x0. repeat apply conj; auto.
    + exists ms. rewrite mints_saved. repeat apply conj; assumption.
Qed.

End Iteration.

(** ** What any number of iterations keeps *)

Section Run.

Context {W RawLog : Type}.
Variable requests_get : string -> W -> result Response * W.
Variable float_of_str : string -> option Q.

Local Abbreviation iteration := (run_iteration requests_get float_of_str).
Local Abbreviation loop := (run requests_get float_of_str).

Implicit Types (w : World W) (self : EventProcessor W RawLog).

Lemma run_inv self (k : nat) :
  forall w,
    let w' := snd (loop self k w) in
    fst (loop self k w) = Ok tt
    /\ nonces_kept w w'
    /\ (StronglySorted Z.lt (completed_nonces (state w)) ->
        StronglySorted Z.lt (completed_nonces (state w')))
    /\ (0 <= block_scan_range self ->
        last_processed_block (state w) <= last_processed_block (state w'))
    /\ exists ms,
         mints (trace w') = mints (trace w) ++ ms
         /\ Forall (fresh_for self w) ms
         /\ (forall n, In n (completed_nonces (state w')) ->
               In n (completed_nonces (state w)) \/ In n (map nonce ms)).
Proof.
  induction k as [|k IH]; intros w; cbv zeta; simpl.
  - repeat apply conj; try reflexivity; try (intros; assumption).
    + intros n H; exact H.
    + exists []. rewrite app_nil_r. repeat apply conj; auto.
  - unfold bind.
    destruct (run_iteration_inv requests_get float_of_str self w)
      as [Hok [Hk [Hs [Hb [ms [Hm [Hfr [_ Horig]]]]]]]].
    destruct (iteration self w) as [r w1]. simpl in *. subst r.
    specialize (IH w1). cbv zeta in IH.
    destruct IH as [Hok' [Hk' [Hs' [Hb' [ms' [Hm' [Hfr' Horig']]]]]]].
    repeat apply conj; auto.
    + intros n Hn. apply Hk', Hk, Hn.
    + intros Hr. specialize (Hb' Hr).
      destruct Hb as [Hb|[latest [x0 [_ [Hle Hb]]]]]; lia.
    + exists (ms ++ ms'). rewrite Hm', Hm, app_assoc.
      repeat apply conj; [reflexivity | |].
      * apply Forall_app. split; [exact Hfr|].
        eapply Forall_impl; [|exact Hfr'].
        intros m. apply fresh_for_earlier, Hk.
      * intros n Hn. rewrite map_app, in_app_iff.
        destruct (Horig' n Hn) as [H|H]; [|tauto].
        destruct (Horig n H); tauto.
Qed.

End Run.

(** X1. The loop never raises: whatever the connectors, the decoder and the
    oracle do, every iteration, and any number of iterations, ends
    normally. *)
Theorem run_never_raises {W RawLog}
    (requests_get : string -> W -> result Response * W)
    (float_of_str : string -> option Q)
    (self : EventProcessor W RawLog) (k : nat) (w : World W) :
  fst (run_iteration requests_get float_of_str self w) = Ok tt
  /\ fst (run requests_get float_of_str self k w) = Ok tt.
Proof.
  split.
  - apply run_iteration_inv.
  - apply run_inv.
Qed.

(** X2. Completed nonces are never removed: a nonce present before any
    number of iterations is present after them. *)
Theorem run_keeps_completed_nonces {W RawLog}
    (requests_get : string -> W -> result Response * W)
    (float_of_str : string -> option Q)
    (self : EventProcessor W RawLog) (k : nat) (w : World W) (n : Z) :
  In n (completed_nonces (state w)) ->
  In n (completed_nonces (state (snd (run requests_get float_of_str self k w)))).
Proof.
  intros H.
  destruct (run_inv requests_get float_of_str self k w) as [_ [Hk _]].
  apply Hk, H.
Qed.

Lemma run_keeps_completed_nonces_witness :
  In 9 (completed_nonces (state (world_at 100 [9])))
  /\ In 9 (completed_nonces
             (state (snd (run oracle_up float_of_digits
                            (relay 105 four_deposits send_failing_on_3 receipt_ok)
                            3 (world_at 100 [9]))))).
Proof.
  assert (H : In 9 (completed_nonces (state (world_at 100 [9]))))
    by (left; reflexivity).
  split; [exact H|].
  exact (run_keeps_completed_nonces oracle_up float_of_digits
           (relay 105 four_deposits send_failing_on_3 receipt_ok)
           3 (world_at 100 [9]) 9 H).
Defined.

(** X3. The list of completed nonces stays duplicate-free and ascending
    through any number of iterations of the loop. *)
Theorem run_keeps_nonces_sorted {W RawLog}
    (requests_get : string -> W -> result Response * W)
    (float_of_str : string -> option Q)
    (self : EventProcessor W RawLog) (k : nat) (w : World W) :
  NoDup (completed_nonces (state w)) ->
  StronglySorted Z.le (completed_nonces (state w)) ->
  NoDup (completed_nonces (state (snd (run requests_get float_of_str self k w))))
  /\ StronglySorted Z.le
       (completed_nonces (state (snd (run requests_get float_of_str self k w)))).
Proof.
  intros Hnd Hs.
  destruct (run_inv requests_get float_of_str self k w) as [_ [_ [H _]]].
  specialize (H (strict_of_sorted_NoDup _ Hnd Hs)).
  split; [apply strict_sorted_NoDup, H | apply sorted_of_strict, H].
Qed.

Lemma run_keeps_nonces_sorted_witness :
  completed_nonces
    (state (snd (run oracle_up float_of_digits
                   (relay 105 four_deposits send_ok receipt_ok)
                   2 (world_at 100 [3; 8]))))
  = [1; 2; 3; 4; 8]
  /\ NoDup [1; 2; 3; 4; 8] /\ StronglySorted Z.le [1; 2; 3; 4; 8].
Proof.
  split; [reflexivity|].
  assert (Hnd : NoDup (completed_nonces (state (world_at 100 [3; 8])))).
  { simpl. repeat (apply NoDup_cons; [simpl; intuition lia|]). apply NoDup_nil. }
  assert (Hs : StronglySorted Z.le (completed_nonces (state (world_at 100 [3; 8])))).
  { simpl. repeat constructor; lia. }
  exact (run_keeps_nonces_sorted oracle_up float_of_digits
           (relay 105 four_deposits send_ok receipt_ok)
           2 (world_at 100 [3; 8]) Hnd Hs).
Defined.

(** X5. With a scan range that is not negative (the constructor sets 100),
    [last_processed_block] never decreases, over any number of
    iterations. *)
Theorem last_processed_block_never_decreases {W RawLog}
    (requests_get : string -> W -> result Response * W)
    (float_of_str : string -> option Q)
    (self : EventProcessor W RawLog) (k : nat) (w : World W) :
  0 <= block_scan_range self ->
  last_processed_block (state w)
  <= last_processed_block (state (snd (run requests_get float_of_str self k w))).
Proof.
  intros H.
  destruct (run_inv requests_get float_of_str self k w) as [_ [_ [_ [Hb _]]]].
  apply Hb, H.
Qed.

Lemma last_processed_block_never_decreases_witness :
  let self := relay 105 four_deposits send_ok receipt_ok in
  0 <= block_scan_range self
  /\ last_processed_block (state (world_at 100 []))
     <= last_processed_block
          (state (snd (run oracle_rejecting float_of_digits self 3 (world_at 100 [])))).
Proof.
  cbv zeta.
  assert (H : 0 <= block_scan_range (relay 105 four_deposits send_ok receipt_ok))
    by (simpl; lia).
  split; [exact H|].
  exact (last_processed_block_never_decreases oracle_rejecting float_of_digits
           (relay 105 four_deposits send_ok receipt_ok) 3 (world_at 100 []) H).
Defined.

(** X6. Whatever the loop submits to the destination chain, over any
    number of iterations, is a record for the target chain whose nonce was
    not completed when the loop started: a completed nonce is never minted
    again. *)
Theorem run_mints_only_fresh_records {W RawLog}
    (requests_get : string -> W -> result Response * W)
    (float_of_str : string -> option Q)
    (self : EventProcessor W RawLog) (k : nat) (w : World W) :
  exists ms,
    mints (trace (snd (run requests_get float_of_str self k w)))
    = mints (trace w) ++ ms
    /\ Forall (fun m => destinationChainId m = target_chain_id self
                        /\ ~ In (nonce m) (completed_nonces (state w))) ms.
Proof.
  destruct (run_inv requests_get float_of_str self k w)
    as [_ [_ [_ [_ [ms [Hm [Hfr _]]]]]]].
  exists ms. split; [exact Hm|].
  eapply Forall_impl; [|exact Hfr].
  intros m [Hd Hn]. split; [exact Hd | apply py_in_false, Hn].
Qed.

(** X7. A nonce that the loop adds to [completed_nonces] is the nonce of a
    record it submitted to the destination chain during those
    iterations. *)
Theorem completed_nonce_was_minted {W RawLog}
    (requests_get : string -> W -> result Response * W)
    (float_of_str : string -> option Q)
    (self : EventProcessor W RawLog) (k : nat) (w : World W) (n : Z) :
  In n (completed_nonces (state (snd (run requests_get float_of_str self k w)))) ->
  ~ In n (completed_nonces (state w)) ->
  exists ms m,
    mints (trace (snd (run requests_get float_of_str self k w)))
    = mints (trace w) ++ ms
    /\ In m ms /\ nonce m = n /\ destinationChainId m = target_chain_id self.
Proof.
  intros Hin Hnot.
  destruct (run_inv requests_get float_of_str self k w)
    as [_ [_ [_ [_ [ms [Hm [Hfr Horig]]]]]]].
  destruct (Horig n Hin) as [H|H]; [contradiction|].
  apply in_map_iff in H. destruct H as [m [Heq Hm_in]].
  exists ms, m. repeat split; try assumption.
  rewrite Forall_forall in Hfr. apply (Hfr m Hm_in).
Qed.

Lemma completed_nonce_was_minted_witness :
  let self := relay 105 four_deposits send_failing_on_3 receipt_ok in
  let w := world_at 100 [] in
  let w' := snd (run oracle_up float_of_digits self 1 w) in
  In 2 (completed_nonces (state w'))
  /\ ~ In 2 (completed_nonces (state w))
  /\ exists ms m,
       mints (trace w') = mints (trace w) ++ ms
       /\ In m ms /\ nonce m = 2
       /\ destinationChainId m = target_chain_id self.
Proof.
  cbv zeta.
  assert (Hin : In 2 (completed_nonces
                        (state (snd (run oracle_up float_of_digits
                                       (relay 105 four_deposits send_failing_on_3 receipt_ok)
                                       1 (world_at 100 []))))))
    by (vm_compute; right; left; reflexivity).
  assert (Hnot : ~ In 2 (completed_nonces (state (world_at 100 []))))
    by (intros []).
  split; [exact Hin|]. split; [exact Hnot|].
  exact (completed_nonce_was_minted oracle_up float_of_digits
           (relay 105 four_deposits send_failing_on_3 receipt_ok)
           1 (world_at 100 []) 2 Hin Hnot).
Defined.

(** X8. Within one window no nonce is submitted twice: the mint
    submissions of [process_events] have pairwise distinct nonces, every
    submission but the last one ended with its nonce completed, and the
    batch loop never changes [last_processed_block]. *)
Theorem window_mints_each_nonce_once {W RawLog}
    (requests_get : string -> W -> result Response * W)
    (float_of_str : string -> option Q)
    (self : EventProcessor W RawLog) (events : list DepositEvent)
    (w : World W) :
  let w' := snd (process_events requests_get float_of_str self events w) in
  last_processed_block (state w') = last_processed_block (state w)
  /\ exists ms,
       mints (trace w') = mints (trace w) ++ ms
       /\ NoDup (map nonce ms)
       /\ forall ms' m,
            ms = ms' ++ [m] ->
            Forall (fun m' => In (nonce m') (completed_nonces (state w'))) ms'.
Proof.
  cbv zeta. rewrite process_events_eq.
  destruct (process_batch_inv requests_get float_of_str self
              (sorted_by tuple_leb sort_key events) w)
    as [Hb [_ [_ [ms [Hm [_ [Hnd [Hlast _]]]]]]]].
  split; [exact Hb|].
  exists ms. repeat split; assumption.
Qed.

(** X9. No new block, no mutation: when the head reported by the source
    chain is not beyond [last_processed_block], or the head cannot be
    fetched, the iteration changes nothing but the external state: no
    fetch of logs is recorded in the dictionary, the file or the trace. *)
Theorem no_new_blocks_no_mutation {W RawLog}
    (requests_get : string -> W -> result Response * W)
    (float_of_str : string -> option Q)
    (self : EventProcessor W RawLog) (w : World W)
    (r : result Z) (x0 : W) :
  get_latest_block_number (connector (source_handler self)) (ext w) = (r, x0) ->
  match r with
  | Ok latest => latest <= last_processed_block (state w)
  | Raise _ => True
  end ->
  run_iteration requests_get float_of_str self w = (Ok tt, with_ext x0 w).
Proof.
  intros Hl Hr.
  unfold run_iteration, try_except, get_last_processed_block.
  unfold bind at 1 2 3. unfold get_state, ret. cbv beta iota.
  unfold call_ext. rewrite Hl.
  destruct r as [latest|err]; cbv beta iota; [|reflexivity].
  unfold scan_window. cbv zeta iota.
  destruct (last_processed_block (state w) + 1 >? latest) eqn:E; [reflexivity|].
  lia.
Qed.

Lemma no_new_blocks_no_mutation_witness :
  let self := relay 105 four_deposits send_ok receipt_ok in
  let w := world_at 105 [1; 2] in
  get_latest_block_number (connector (source_handler self)) (ext w) = (Ok 105, tt)
  /\ 105 <= last_processed_block (state w)
  /\ run_iteration oracle_up float_of_digits self w = (Ok tt, with_ext tt w).
Proof.
  cbv zeta.
  assert (H : 105 <= last_processed_block (state (world_at 105 [1; 2])))
    by (simpl; lia).
  split; [reflexivity|]. split; [exact H|].
  exact (no_new_blocks_no_mutation oracle_up float_of_digits
           (relay 105 four_deposits send_ok receipt_ok) (world_at 105 [1; 2])
           (Ok 105) tt eq_refl H).
Defined.

(** X10. An iteration never commits a block beyond the head the source
    chain reported at its start: with a scan range that is not negative,
    [last_processed_block] afterwards lies between its old value and the
    larger of the old value and that head. *)
Theorem commit_within_head {W RawLog}
    (requests_get : string -> W -> result Response * W)
    (float_of_str : string -> option Q)
    (self : EventProcessor W RawLog) (w : World W) (latest : Z) (x0 : W) :
  get_latest_block_number (connector (source_handler self)) (ext w)
  = (Ok latest, x0) ->
  0 <= block_scan_range self ->
  let b' := last_processed_block
              (state (snd (run_iteration requests_get float_of_str self w))) in
  last_processed_block (state w) <= b'
  /\ b' <= Z.max (last_processed_block (state w)) latest.
Proof.
  intros Hl Hr. cbv zeta.
  destruct (run_iteration_inv requests_get float_of_str self w)
    as [_ [_ [_ [Hb _]]]].
  destruct Hb as [Hb|[latest' [x0' [Hl' [Hle Hb]]]]].
  - rewrite Hb. lia.
  - rewrite Hl in Hl'. injection Hl' as <- <-. rewrite Hb. lia.
Qed.

Lemma commit_within_head_witness :
  let self := relay 500 four_deposits send_ok receipt_ok in
  let w := world_at 450 [] in
  get_latest_block_number (connector (source_handler self)) (ext w) = (Ok 500, tt)
  /\ 0 <= block_scan_range self
  /\ 450 <= last_processed_block
              (state (snd (run_iteration oracle_up float_of_digits self w)))
     <= Z.max 450 500.
Proof.
  cbv zeta.
  assert (H : 0 <= block_scan_range (relay 500 four_deposits send_ok receipt_ok))
    by (simpl; lia).
  split; [reflexivity|]. split; [exact H|].
  exact (commit_within_head oracle_up float_of_digits
           (relay 500 four_deposits send_ok receipt_ok) (world_at 450 [])
           500 tt eq_refl H).
Defined.

(** X11. A record that is not settled.  When [process_single_event]
    raises, which only the oracle step can make it do, the record was for
    the target chain with a nonce not yet completed, nothing was
    dispatched and the store is untouched: dictionary, state file and
    trace are as before.  When it returns [False], the record was for the
    target chain with a nonce not yet completed, exactly one mint was
    submitted, of this record, the last processed block is as before and
    every nonce completed before still is. *)
Theorem unsettled_record_effects {W RawLog}
    (requests_get : string -> W -> result Response * W)
    (float_of_str : string -> option Q)
    (self : EventProcessor W RawLog) (e : DepositEvent) (w : World W) :
  let r := fst (process_single_event requests_get float_of_str self e w) in
  let w' := snd (process_single_event requests_get float_of_str self e w) in
  (forall err,
     r = Raise err ->
     fresh_for self w e
     /\ state w' = state w /\ disk w' = disk w /\ trace w' = trace w)
  /\ (r = Ok false ->
      fresh_for self w e
      /\ mints (trace w') = mints (trace w) ++ [e]
      /\ last_processed_block (state w') = last_processed_block (state w)
      /\ nonces_kept w w').
Proof.
  cbv zeta.
  destruct (pse_cases requests_get float_of_str self e w)
    as [[E _]|[Hf [[err [x E]]|[[x E]|[x E]]]]]; rewrite E; simpl;
    (split; [intros err' H | intros H]); try discriminate.
  - repeat split; solve [apply Hf | reflexivity].
  - split; [exact Hf|]. rewrite mints_app. simpl.
    repeat split. intros n Hn. exact Hn.
Qed.

Lemma unsettled_record_effects_witness :
  let self := relay 105 four_deposits send_failing_on_3 receipt_ok in
  let e := DepositEvent_of (deposit 3 0) in
  let w := world_at 100 [1; 2] in
  let r := fst (process_single_event oracle_up float_of_digits self e w) in
  let w' := snd (process_single_event oracle_up float_of_digits self e w) in
  r = Ok false
  /\ fresh_for self w e
  /\ mints (trace w') = mints (trace w) ++ [e]
  /\ last_processed_block (state w') = last_processed_block (state w)
  /\ nonces_kept w w'.
Proof.
  cbv zeta.
  assert (H : fst (process_single_event oracle_up float_of_digits
                     (relay 105 four_deposits send_failing_on_3 receipt_ok)
                     (DepositEvent_of (deposit 3 0)) (world_at 100 [1; 2]))
              = Ok false)
    by (vm_compute; reflexivity).
  split; [exact H|].
  exact (proj2 (unsettled_record_effects oracle_up float_of_digits
                  (relay 105 four_deposits send_failing_on_3 receipt_ok)
                  (DepositEvent_of (deposit 3 0)) (world_at 100 [1; 2])) H).
Defined.

(** X12. Replaying a settled record is a no-op: once
    [process_single_event] has returned [True] for a record, processing the
    same record again returns [True] and changes nothing, so no second mint
    is submitted. *)
Theorem settled_record_replay_is_noop {W RawLog}
    (requests_get : string -> W -> result Response * W)
    (float_of_str : string -> option Q)
    (self : EventProcessor W RawLog) (e : DepositEvent) (w w1 : World W) :
  process_single_event requests_get float_of_str self e w = (Ok true, w1) ->
  process_single_event requests_get float_of_str self e w1 = (Ok true, w1).
Proof.
  intros H.
  destruct (pse_cases requests_get float_of_str self e w)
    as [[E Hnf]|[[Hd Hn] [[err [x E]]|[[x E]|[x E]]]]];
    rewrite E in H; try discriminate.
  - injection H as <-. exact E.
  - injection H as <-. apply pse_skip. right.
    simpl state. apply py_in_with_nonce.
Qed.

Lemma settled_record_replay_is_noop_witness :
  let self := relay 105 four_deposits send_ok receipt_ok in
  let e := DepositEvent_of (deposit 1 0) in
  let w1 := snd (process_single_event oracle_up float_of_digits self e
                   (world_at 100 [])) in
  process_single_event oracle_up float_of_digits self e (world_at 100 [])
  = (Ok true, w1)
  /\ process_single_event oracle_up float_of_digits self e w1 = (Ok true, w1).
Proof.
  cbv zeta.
  assert (H : process_single_event oracle_up float_of_digits
                (relay 105 four_deposits send_ok receipt_ok)
                (DepositEvent_of (deposit 1 0)) (world_at 100 [])
              = (Ok true,
                 snd (process_single_event oracle_up float_of_digits
                        (relay 105 four_deposits send_ok receipt_ok)
                        (DepositEvent_of (deposit 1 0)) (world_at 100 []))))
    by (vm_compute; reflexivity).
  split; [exact H|].
  exact (settled_record_replay_is_noop oracle_up float_of_digits
           (relay 105 four_deposits send_ok receipt_ok)
           (DepositEvent_of (deposit 1 0)) (world_at 100 []) _ H).
Defined.

(** ** More on the state store *)

Lemma sorted_le_unique (l1 : list Z) :
  forall l2, StronglySorted Z.le l1 -> StronglySorted Z.le l2 ->
             Permutation l1 l2 -> l1 = l2.
Proof.
  induction l1 as [|a l1 IH]; intros l2 H1 H2 Hp.
  - apply Permutation_nil in Hp. now subst.
  - destruct l2 as [|b l2].
    + apply Permutation_sym, Permutation_nil in Hp. discriminate.
    + inversion H1 as [|? ? Hs1 Ha]; subst.
      inversion H2 as [|? ? Hs2 Hb]; subst.
      assert (Hab : a = b).
      { assert (Hin_a : In a (b :: l2))
          by (eapply Permutation_in; [exact Hp | left; reflexivity]).
        assert (Hin_b : In b (a :: l1))
          by (eapply Permutation_in; [apply Permutation_sym, Hp | left; reflexivity]).
        rewrite Forall_forall in Ha, Hb.
        destruct Hin_a as [->|Hin_a]; [reflexivity|].
        destruct Hin_b as [->|Hin_b]; [reflexivity|].
        specialize (Ha b Hin_b). specialize (Hb a Hin_a). lia. }
      subst b. f_equal.
      apply IH; try assumption.
      eapply Permutation_cons_inv, Hp.
Qed.

Lemma list_sort_sorted (l : list Z) : StronglySorted Z.le (list_sort l).
Proof.
  pose proof (sorted_by_sorted Z.leb (fun z : Z => z) Z_leb_total Z_leb_trans l) as H.
  unfold list_sort. induction H as [|x l' Hs IH Hx]; constructor; [exact IH|].
  eapply Forall_impl; [|exact Hx].
  unfold le_by. intros; lia.
Qed.

Lemma list_sort_of_perm (l l' : list Z) :
  Permutation l l' -> list_sort l = list_sort l'.
Proof.
  intros Hp. apply sorted_le_unique; try apply list_sort_sorted.
  eapply perm_trans; [apply list_sort_perm|].
  eapply perm_trans; [exact Hp | apply Permutation_sym, list_sort_perm].
Qed.

Lemma saves_app (t1 t2 : list effect) : saves (t1 ++ t2) = saves t1 ++ saves t2.
Proof.
  induction t1 as [|[m|s] t1 IH]; simpl; [reflexivity | exact IH | now rewrite IH].
Qed.

Lemma nonces_after_mark {W} (n : Z) (w : World W) :
  completed_nonces (state (snd (mark_nonce_as_processed n w)))
  = if py_in n (completed_nonces (state w)) then completed_nonces (state w)
    else list_sort (completed_nonces (state w) ++ [n]).
Proof.
  rewrite mark_nonce_as_processed_eq.
  destruct (py_in n (completed_nonces (state w))); reflexivity.
Qed.

(** X13. [set_last_processed_block] followed by [get_last_processed_block]
    gives back the block that was set; the completed nonces are untouched;
    and the file is rewritten once, with the new dictionary, even when the
    block number does not change. *)
Theorem set_then_get_last_processed_block {W} (b : Z) (w : World W) :
  let w' := snd (set_last_processed_block b w) in
  get_last_processed_block w' = (Ok b, w')
  /\ (forall n, fst (is_nonce_processed n w') = fst (is_nonce_processed n w))
  /\ saves (trace w') = saves (trace w) ++ [mkState b (completed_nonces (state w))]
  /\ disk w' = FileJson (mkState b (completed_nonces (state w))).
Proof.
  cbv zeta. rewrite set_last_processed_block_eq. simpl.
  repeat split. rewrite saves_app. reflexivity.
Qed.

(** X14. Lookup after insertion: after [mark_nonce_as_processed n], a
    nonce [m] is reported as processed exactly when [m] is [n] or [m] was
    processed before. *)
Theorem is_nonce_processed_after_mark {W} (n m : Z) (w : World W) :
  fst (is_nonce_processed m (snd (mark_nonce_as_processed n w)))
  = Ok ((m =? n) || py_in m (completed_nonces (state w))).
Proof.
  unfold is_nonce_processed, bind, get_state, ret. cbv beta. simpl fst.
  f_equal. rewrite nonces_after_mark.
  destruct (py_in n (completed_nonces (state w))) eqn:En.
  - destruct (Z.eqb_spec m n) as [->|Hne]; simpl; [|reflexivity].
    rewrite En. reflexivity.
  - apply eq_true_iff_eq. rewrite py_in_In, list_sort_In, in_app_iff.
    rewrite orb_true_iff, Z.eqb_eq, py_in_In. simpl. intuition.
Qed.

(** X15. The order in which two nonces are marked does not matter for the
    dictionary: both orders end with the same block and the same list of
    completed nonces. *)
Theorem mark_order_irrelevant {W} (n m : Z) (w : World W) :
  state (snd (mark_nonce_as_processed m (snd (mark_nonce_as_processed n w))))
  = state (snd (mark_nonce_as_processed n (snd (mark_nonce_as_processed m w)))).
Proof.
  assert (Hb : forall a (u : World W),
             last_processed_block (state (snd (mark_nonce_as_processed a u)))
             = last_processed_block (state u)).
  { intros a u. rewrite mark_nonce_as_processed_eq.
    destruct (py_in a _); reflexivity. }
  assert (Hl : completed_nonces
                 (state (snd (mark_nonce_as_processed m
                                (snd (mark_nonce_as_processed n w)))))
               = completed_nonces
                   (state (snd (mark_nonce_as_processed n
                                  (snd (mark_nonce_as_processed m w)))))).
  { rewrite !nonces_after_mark.
    set (l := completed_nonces (state w)).
    destruct (py_in n l) eqn:En, (py_in m l) eqn:Em; rewrite ?En, ?Em.
    - reflexivity.
    - replace (py_in n (list_sort (l ++ [m]))) with true; [reflexivity|].
      symmetry. apply py_in_In, list_sort_In, in_or_app. left.
      apply py_in_In, En.
    - replace (py_in m (list_sort (l ++ [n]))) with true; [reflexivity|].
      symmetry. apply py_in_In, list_sort_In, in_or_app. left.
      apply py_in_In, Em.
    - destruct (Z.eq_dec n m) as [->|Hne]; [reflexivity|].
      replace (py_in m (list_sort (l ++ [n]))) with false.
      2:{ symmetry. apply py_in_false. rewrite list_sort_In, in_app_iff.
          apply py_in_false in Em. simpl. intuition. }
      replace (py_in n (list_sort (l ++ [m]))) with false.
      2:{ symmetry. apply py_in_false. rewrite list_sort_In, in_app_iff.
          apply py_in_false in En. simpl. intuition. }
      apply list_sort_of_perm.
      eapply perm_trans; [apply Permutation_app_tail, list_sort_perm|].
      eapply perm_trans;
        [|apply Permutation_sym, Permutation_app_tail, list_sort_perm].
      rewrite <- !app_assoc. apply Permutation_app_head. simpl. apply perm_swap. }
  specialize (Hb m (snd (mark_nonce_as_processed n w))) as H1.
  specialize (Hb n (snd (mark_nonce_as_processed m w))) as H2.
  rewrite (Hb n w) in H1. rewrite (Hb m w) in H2.
  destruct (state (snd (mark_nonce_as_processed m (snd (mark_nonce_as_processed n w))))),
           (state (snd (mark_nonce_as_processed n (snd (mark_nonce_as_processed m w))))).
  simpl in *. congruence.
Qed.

(** ** The oracle and the window *)

(** X16. The fallback of the oracle lookup: when [requests.get] raises a
    request exception, when the answer carries an HTTP error status (4xx
    or 5xx), or when its body is not JSON, the lookup returns the default
    50.0 and changes nothing but the external state. *)
Theorem oracle_falls_back_on_request_errors {W}
    (requests_get : string -> W -> result Response * W)
    (float_of_str : string -> option Q)
    (w : World W) (r : result Response) (x : W) :
  requests_get oracle_url (ext w) = (r, x) ->
  match r with
  | Raise err => is_RequestException err = true
  | Ok response =>
      (400 <= status_code response < 600) \/ body response = None
  end ->
  _fetch_gas_price_from_oracle requests_get float_of_str w
  = (Ok 50%Q, with_ext x w).
Proof.
  intros Hget Hr.
  unfold _fetch_gas_price_from_oracle, try_except, bind, call_ext,
    raise_for_status, response_json, lift_result, ret, raise.
  rewrite Hget. destruct r as [response|err]; cbv beta iota.
  - destruct ((400 <=? status_code response) && (status_code response <? 600))
      eqn:E; cbv beta iota; [reflexivity|].
    destruct Hr as [Hr|Hr]; [lia|]. rewrite Hr. reflexivity.
  - rewrite Hr. reflexivity.
Qed.

Lemma oracle_falls_back_on_request_errors_witness :
  let w := world_at 100 [] in
  let unavailable := fun (_ : string) (x : unit) =>
                       (Ok (mkResponse 503 None), x) in
  unavailable oracle_url (ext w) = (Ok (mkResponse 503 None), tt)
  /\ (400 <= 503 < 600 \/ @None json = None)
  /\ _fetch_gas_price_from_oracle unavailable float_of_digits w
     = (Ok 50%Q, with_ext tt w).
Proof.
  cbv zeta.
  assert (H : 400 <= 503 < 600 \/ @None json = None) by (left; lia).
  split; [reflexivity|]. split; [exact H|].
  exact (oracle_falls_back_on_request_errors
           (fun (_ : string) (x : unit) => (Ok (mkResponse 503 None), x))
           float_of_digits (world_at 100 []) (Ok (mkResponse 503 None)) tt
           eq_refl H).
Defined.

(** X17. An exception of [requests.get] that is not a request exception is
    not absorbed: it leaves the lookup, and with it
    [process_single_event], before anything is dispatched. *)
Theorem oracle_passes_on_other_exceptions {W RawLog}
    (requests_get : string -> W -> result Response * W)
    (float_of_str : string -> option Q)
    (self : EventProcessor W RawLog) (e : DepositEvent)
    (w : World W) (err : exn) (x : W) :
  requests_get oracle_url (ext w) = (Raise err, x) ->
  is_RequestException err = false ->
  _fetch_gas_price_from_oracle requests_get float_of_str w
  = (Raise err, with_ext x w)
  /\ (fresh_for self w e ->
      process_single_event requests_get float_of_str self e w
      = (Raise err, with_ext x w)).
Proof.
  intros Hget Hr.
  assert (Hf : _fetch_gas_price_from_oracle requests_get float_of_str w
               = (Raise err, with_ext x w)).
  { unfold _fetch_gas_price_from_oracle, try_except, bind, call_ext.
    rewrite Hget. cbv beta iota. rewrite Hr. reflexivity. }
  split; [exact Hf|].
  intros [Hd Hn]. eapply pse_oracle_raises; eassumption.
Qed.

Lemma oracle_passes_on_other_exceptions_witness :
  let w := world_at 100 [] in
  let self := relay 105 four_deposits send_ok receipt_ok in
  let e := DepositEvent_of (deposit 1 0) in
  let broken := fun (_ : string) (x : unit) =>
                  (@Raise Response (OtherException "MemoryError"), x) in
  broken oracle_url (ext w) = (Raise (OtherException "MemoryError"), tt)
  /\ is_RequestException (OtherException "MemoryError") = false
  /\ fresh_for self w e
  /\ process_single_event broken float_of_digits self e w
     = (Raise (OtherException "MemoryError"), with_ext tt w).
Proof.
  cbv zeta.
  assert (Hf : fresh_for (relay 105 four_deposits send_ok receipt_ok)
                 (world_at 100 []) (DepositEvent_of (deposit 1 0)))
    by (split; reflexivity).
  split; [reflexivity|]. split; [reflexivity|]. split; [exact Hf|].
  exact (proj2 (oracle_passes_on_other_exceptions
                  (fun (_ : string) (x : unit) =>
                     (@Raise Response (OtherException "MemoryError"), x))
                  float_of_digits (relay 105 four_deposits send_ok receipt_ok)
                  (DepositEvent_of (deposit 1 0)) (world_at 100 [])
                  (OtherException "MemoryError") tt eq_refl eq_refl) Hf).
Defined.

(** X18. The window of an iteration that has new blocks to scan: with a
    scan range that is not negative it starts right after
    [last_processed_block], is not empty, does not reach beyond the head,
    and holds at most one block more than the scan range; it stops short
    of that size only when it ends at the head. *)
Theorem scan_window_bounds {W RawLog} (self : EventProcessor W RawLog)
    (last latest : Z) :
  0 <= block_scan_range self ->
  last + 1 <= latest ->
  let win := scan_window self last latest in
  fst win = last + 1
  /\ fst win <= snd win <= latest
  /\ 1 <= window_size win <= block_scan_range self + 1
  /\ (window_size win = block_scan_range self + 1 \/ snd win = latest).
Proof.
  intros Hr Hl. unfold scan_window, window_size. simpl. lia.
Qed.

Lemma scan_window_bounds_witness :
  let self := relay 130 [] send_ok receipt_ok in
  0 <= block_scan_range self
  /\ 100 + 1 <= 130
  /\ (let win := scan_window self 100 130 in
      fst win = 100 + 1
      /\ fst win <= snd win <= 130
      /\ 1 <= window_size win <= block_scan_range self + 1
      /\ (window_size win = block_scan_range self + 1 \/ snd win = 130)).
Proof.
  cbv zeta.
  assert (Hr : 0 <= block_scan_range (relay 130 [] send_ok receipt_ok))
    by (simpl; lia).
  assert (Hl : 100 + 1 <= 130) by lia.
  split; [exact Hr|]. split; [exact Hl|].
  exact (scan_window_bounds (relay 130 [] send_ok receipt_ok) 100 130 Hr Hl).
Defined.

(** ** The mock connector *)

Lemma hex_of_N_nonempty (n : N) : hex_of_N n <> EmptyString.
Proof.
  unfold hex_of_N. destruct (N.to_hex_uint n); simpl; discriminate.
Qed.

Lemma N_of_hex_leading_zero (s : string) :
  s <> EmptyString -> N_of_hex (String "0" s) = N_of_hex s.
Proof.
  intros Hs. unfold N_of_hex. destruct s as [|c s]; [contradiction|].
  change (HexadecimalString.NilZero.uint_of_string (String "0" (String c s)))
    with (HexadecimalString.uint_of_char "0"
            (HexadecimalString.NilEmpty.uint_of_string (String c s))).
  change (HexadecimalString.NilZero.uint_of_string (String c s))
    with (HexadecimalString.NilEmpty.uint_of_string (String c s)).
  destruct (HexadecimalString.NilEmpty.uint_of_string (String c s)); reflexivity.
Qed.

Lemma N_of_hex_zeros (k : nat) (s : string) :
  s <> EmptyString -> N_of_hex (String.append (str_repeat "0" k) s) = N_of_hex s.
Proof.
  intros Hs. induction k as [|k IH]; simpl; [reflexivity|].
  rewrite N_of_hex_leading_zero; [exact IH|].
  destruct k; simpl; [exact Hs | discriminate].
Qed.

Lemma N_of_hex_of_N (n : N) : N_of_hex (hex_of_N n) = Some n.
Proof.
  unfold N_of_hex, hex_of_N.
  pose proof (HexadecimalN.Unsigned.of_to n) as Hn.
  destruct (N.to_hex_uint n) eqn:Hd.
  1:{ simpl in *. f_equal. exact Hn. }
  all: rewrite HexadecimalString.NilZero.usu by discriminate;
    simpl option_map; f_equal; exact Hn.
Qed.

Lemma length_append (s1 s2 : string) :
  String.length (String.append s1 s2) = (String.length s1 + String.length s2)%nat.
Proof. induction s1; simpl; [reflexivity | now rewrite IHs1]. Qed.

Lemma length_str_repeat (c : ascii) (k : nat) : String.length (str_repeat c k) = k.
Proof. induction k; simpl; [reflexivity | now rewrite IHk]. Qed.

(** A number that is not negative is rendered by [format_064x] with at
    least 64 digits that read back as the number. *)
Lemma format_064x_reads_back (n : Z) :
  0 <= n ->
  N_of_hex (format_064x n) = Some (Z.to_N n)
  /\ (64 <= String.length (format_064x n))%nat.
Proof.
  intros Hn. unfold format_064x.
  destruct (n <? 0) eqn:E; [lia|]. unfold zero_pad. split.
  - rewrite N_of_hex_zeros by apply hex_of_N_nonempty. apply N_of_hex_of_N.
  - rewrite length_append, length_str_repeat. lia.
Qed.

(** X19. What the mock chain hands out.  A query with [from_block] above
    [to_block], or made while the current block is not a multiple of 5,
    gives no log and changes nothing.  Otherwise, with an address the
    checksum accepts, it gives exactly one log, whatever the bounds: the
    log of the current block at index 0, whose data are three zero-padded
    hexadecimal words reading back as the amount 10^18, the chain id 97
    and, as nonce, the number of the current block; two uuids are drawn
    and no block is mined. *)
Theorem mock_event_carries_block_number
    (uuid4_hex : nat -> string)
    (to_checksum_address : string -> result string)
    (c : mock_id) (contract_address : string) (from_block to_block : Z)
    (x : MockWorld) :
  let b := MockBlockchainConnector.current_block c x in
  let out := MockBlockchainConnector.get_events uuid4_hex to_checksum_address
               c contract_address from_block to_block x in
  (from_block > to_block \/ b mod 5 <> 0 -> out = (Ok [], x))
  /\ (forall checksummed,
        from_block <= to_block -> b mod 5 = 0 -> 0 <= b ->
        to_checksum_address contract_address = Ok checksummed ->
        exists log w1 w2 w3,
          fst out = Ok [log]
          /\ log_address log = checksummed
          /\ log_blockNumber log = b /\ log_logIndex log = 0
          /\ log_data log
             = String.append "0x" (String.append w1 (String.append w2 w3))
          /\ String.length w1 = 64%nat /\ String.length w2 = 64%nat
          /\ (64 <= String.length w3)%nat
          /\ N_of_hex w1 = Some 1000000000000000000%N
          /\ N_of_hex w2 = Some 97%N
          /\ N_of_hex w3 = Some (Z.to_N b)
          /\ uuids_drawn (snd out) = S (S (uuids_drawn x))
          /\ MockBlockchainConnector.current_block c (snd out) = b).
Proof.
  cbv zeta. unfold MockBlockchainConnector.get_events. split.
  - intros [H|H].
    + destruct (from_block >? to_block) eqn:E; [reflexivity | lia].
    + destruct (from_block >? to_block); [reflexivity|].
      destruct (MockBlockchainConnector.current_block c x mod 5 =? 0) eqn:E;
        [lia | reflexivity].
  - intros checksummed Hle Hmod Hpos Hchk.
    destruct (from_block >? to_block) eqn:E; [lia|].
    destruct (MockBlockchainConnector.current_block c x mod 5 =? 0) eqn:E5; [|lia].
    rewrite Hchk. simpl.
    destruct (format_064x_reads_back _ Hpos) as [Hread Hlen].
    eexists. exists (format_064x 1000000000000000000), (format_064x 97),
      (format_064x (MockBlockchainConnector.current_block c x)).
    repeat apply conj; try reflexivity; try assumption.
Qed.

Lemma mock_event_carries_block_number_witness :
  let x := mkMockWorld 35 2 0 in
  let out := MockBlockchainConnector.get_events counting_uuid (fun a => Ok a)
               source_connector "0x5FbDB2315678afecb367f032d93F642f64180aa3" 36 36 x in
  (36 <= 36 /\ 35 mod 5 = 0 /\ 0 <= 35)
  /\ exists log w1 w2 w3,
       fst out = Ok [log]
       /\ log_address log = "0x5FbDB2315678afecb367f032d93F642f64180aa3"
       /\ log_blockNumber log = 35 /\ log_logIndex log = 0
       /\ log_data log
          = String.append "0x" (String.append w1 (String.append w2 w3))
       /\ String.length w1 = 64%nat /\ String.length w2 = 64%nat
       /\ (64 <= String.length w3)%nat
       /\ N_of_hex w1 = Some 1000000000000000000%N
       /\ N_of_hex w2 = Some 97%N
       /\ N_of_hex w3 = Some (Z.to_N 35)
       /\ uuids_drawn (snd out) = 2%nat
       /\ MockBlockchainConnector.current_block source_connector (snd out) = 35.
Proof.
  cbv zeta.
  assert (H1 : 36 <= 36) by lia.
  assert (H2 : 35 mod 5 = 0) by reflexivity.
  assert (H3 : 0 <= 35) by lia.
  split; [auto|].
  exact (proj2 (mock_event_carries_block_number counting_uuid (fun a => Ok a)
                  source_connector "0x5FbDB2315678afecb367f032d93F642f64180aa3"
                  36 36 (mkMockWorld 35 2 0))
           "0x5FbDB2315678afecb367f032d93F642f64180aa3" H1 H2 H3 eq_refl).
Defined.

(** X20. With the mock connector on the destination side a dispatched
    mint is always confirmed: the submission returns a handle that starts
    with [0x] and the receipt has status 1.  So for a record for the
    target chain with a nonce not yet completed, once the oracle has
    answered, [process_single_event] does not raise, exactly one mint is
    submitted, the nonce is in the dictionary's list of completed nonces
    afterwards, and the last processed block is as before.  (Whether
    [True] is returned is then a matter of [_save] alone, and is not
    stated.) *)
Theorem mock_destination_always_confirms
    (requests_get : string -> MockWorld -> result Response * MockWorld)
    (float_of_str : string -> option Q)
    (uuid4_hex : nat -> string)
    (to_checksum_address : string -> result string)
    (c : mock_id) (name : string)
    (self : EventProcessor MockWorld LogReceipt) (e : DepositEvent)
    (w w1 : World MockWorld) (gp : Q) :
  connector (dest_handler self)
  = MockBlockchainConnector.as_connector uuid4_hex to_checksum_address c name ->
  fresh_for self w e ->
  _fetch_gas_price_from_oracle requests_get float_of_str w = (Ok gp, w1) ->
  let w' := snd (process_single_event requests_get float_of_str self e w) in
  mint_confirmed self e (ext w1) = true
  /\ (exists b, fst (process_single_event requests_get float_of_str self e w)
                = Ok b)
  /\ In (nonce e) (completed_nonces (state w'))
  /\ last_processed_block (state w') = last_processed_block (state w)
  /\ mints (trace w') = mints (trace w) ++ [e].
Proof.
  intros Hc [Hd Hn] Hf. cbv zeta.
  destruct (pse_dispatch requests_get float_of_str self e w gp w1 Hd Hn Hf)
    as [x Hx].
  assert (Hconf : mint_confirmed self e (ext w1) = true).
  { unfold mint_confirmed. rewrite Hc. reflexivity. }
  rewrite Hconf in Hx. rewrite Hx. simpl.
  repeat apply conj; try reflexivity.
  - exact Hconf.
  - exists true. reflexivity.
  - apply list_sort_In, in_or_app. right. now left.
  - rewrite !mints_app. simpl. rewrite app_nil_r. reflexivity.
Qed.

Lemma mock_destination_always_confirms_witness :
  let self := mock_relay (fun _ => Raise (OtherException "MismatchedABI")) in
  let e := DepositEvent_of (deposit 5 0) in
  let w := mkWorld (mkMockWorld 5 0 2) FileMissing (mkState 0 []) [] in
  let w' := snd (process_single_event oracle_answering float_of_digits self e w) in
  (fresh_for self w e
   /\ _fetch_gas_price_from_oracle oracle_answering float_of_digits w = (Ok 30%Q, w))
  /\ mint_confirmed self e (ext w) = true
  /\ (exists b, fst (process_single_event oracle_answering float_of_digits self e w)
                = Ok b)
  /\ In (nonce e) (completed_nonces (state w'))
  /\ last_processed_block (state w') = last_processed_block (state w)
  /\ mints (trace w') = mints (trace w) ++ [e].
Proof.
  cbv zeta.
  assert (Hf : fresh_for (mock_relay (fun _ => Raise (OtherException "MismatchedABI")))
                 (mkWorld (mkMockWorld 5 0 2) FileMissing (mkState 0 []) [])
                 (DepositEvent_of (deposit 5 0)))
    by (split; reflexivity).
  split; [split; [exact Hf | reflexivity]|].
  exact (mock_destination_always_confirms oracle_answering float_of_digits
           counting_uuid (fun a => Ok a) dest_connector "DestinationChain"
           (mock_relay (fun _ => Raise (OtherException "MismatchedABI")))
           (DepositEvent_of (deposit 5 0))
           (mkWorld (mkMockWorld 5 0 2) FileMissing (mkState 0 []) [])
           (mkWorld (mkMockWorld 5 0 2) FileMissing (mkState 0 []) [])
           30%Q eq_refl Hf eq_refl).
Defined.

(** * Windows that go wrong, windows that go well *)

Lemma get_deposit_events_drops_batch {W RawLog}
    (h : BridgeContractHandler W RawLog) (from_block to_block : Z)
    (w : World W) (r : result (list RawLog)) (x : W) :
  get_events (connector h) (address h) from_block to_block (ext w) = (r, x) ->
  match r with
  | Raise _ => True
  | Ok raw_logs => forallb (decodes h) raw_logs = false
  end ->
  get_deposit_events h from_block to_block w = (Ok [], with_ext x w).
Proof.
  intros Hg Hr.
  unfold get_deposit_events, try_except, bind, call_ext. rewrite Hg.
  destruct r as [raw_logs|err]; simpl; [|reflexivity].
  rewrite decode_loop_eq, Hr.
  destruct (decode_loop_raises h raw_logs [] (with_ext x w) Hr) as [err Herr].
  unfold with_ext in Herr. rewrite Herr. reflexivity.
Qed.

(** X26. A window that cannot be fetched or decoded is skipped for good:
    when fetching the logs raises, or one log of the batch does not
    decode, the iteration dispatches nothing and still commits
    [to_block], so the records of that window are never relayed. *)
Theorem undecodable_window_is_committed {W RawLog}
    (requests_get : string -> W -> result Response * W)
    (float_of_str : string -> option Q)
    (self : EventProcessor W RawLog) (w : World W)
    (latest : Z) (x0 x1 : W) (r : result (list RawLog)) :
  let from_block := last_processed_block (state w) + 1 in
  let to_block := Z.min latest (from_block + block_scan_range self) in
  get_latest_block_number (connector (source_handler self)) (ext w)
  = (Ok latest, x0) ->
  from_block <= latest ->
  get_events (connector (source_handler self)) (address (source_handler self))
    from_block to_block x0 = (r, x1) ->
  match r with
  | Raise _ => True
  | Ok raw_logs => forallb (decodes (source_handler self)) raw_logs = false
  end ->
  let w' := snd (run_iteration requests_get float_of_str self w) in
  run_iteration requests_get float_of_str self w
  = (Ok tt, saved (mkState to_block (completed_nonces (state w))) (with_ext x1 w))
  /\ mints (trace w') = mints (trace w)
  /\ last_processed_block (state w') = to_block.
Proof.
  cbv zeta. intros Hl Hle Hg Hr.
  assert (E : run_iteration requests_get float_of_str self w
              = (Ok tt,
                 saved (mkState
                          (Z.min latest
                             (last_processed_block (state w) + 1 + block_scan_range self))
                          (completed_nonces (state w))) (with_ext x1 w))).
  { apply (run_iteration_commits requests_get float_of_str self w
             (with_ext x1 w) (with_ext x1 w) latest x0 []); try assumption.
    - apply (get_deposit_events_drops_batch (source_handler self) _ _
               (with_ext x0 w) r x1); assumption.
    - reflexivity. }
  rewrite E. repeat apply conj; try reflexivity.
  simpl snd. rewrite mints_saved. reflexivity.
Qed.

Lemma undecodable_window_is_committed_witness :
  let self := relay 105 batch_with_bad_log send_ok receipt_ok in
  let w := world_at 100 [] in
  get_latest_block_number (connector (source_handler self)) (ext w) = (Ok 105, tt)
  /\ 100 + 1 <= 105
  /\ get_events (connector (source_handler self)) (address (source_handler self))
       (100 + 1) (Z.min 105 (100 + 1 + 100)) tt = (Ok batch_with_bad_log, tt)
  /\ forallb (decodes (source_handler self)) batch_with_bad_log = false
  /\ run_iteration oracle_up float_of_digits self w
     = (Ok tt, saved (mkState 105 []) (with_ext tt w)).
Proof.
  cbv zeta.
  assert (Hle : last_processed_block (state (world_at 100 [])) + 1 <= 105)
    by (simpl; lia).
  split; [reflexivity|]. split; [lia|]. split; [reflexivity|].
  split; [reflexivity|].
  exact (proj1 (undecodable_window_is_committed oracle_up float_of_digits
                  (relay 105 batch_with_bad_log send_ok receipt_ok)
                  (world_at 100 []) 105 tt tt (Ok batch_with_bad_log)
                  eq_refl Hle eq_refl eq_refl)).
Defined.
